(** * H3C EPON port counter: the text parser and the idle-port report

    Shallow embedding of [parse_epon_data] and of the counting part of
    [generate_excel_report] (class [EPONPortAnalyzer]).

    Text.  A Python [str] is modelled as a Stdlib [string]: a sequence of
    code points below 256.  On that range Python's white space (used by
    [str.strip] and by the regular expression class [\s]) is
    U+0009..U+000D, U+001C..U+0020, U+0085 and U+00A0, and the decimal
    digits (class [\d], accepted by [int]) are ['0'..'9'].  Python integers
    are unbounded and are modelled as [Z]; [int] raises [ValueError] on a
    run of more than 4300 digits, the interpreter's limit on the decimal
    strings it converts at its default setting.

    Dictionaries.  [slot_data] is a dict of dicts of dicts.  The two outer
    levels are [gmap Z]; the innermost dict always has the three fixed keys
    '在线' (online), '离线' (offline) and '静默' (silent) and is a record. *)

From Stdlib Require Import ZArith String Ascii List Bool Lia.
From stdpp Require Import base option list gmap strings fin_maps.

Local Open Scope Z_scope.

(** ** Text primitives *)

Module Text.

Definition code (c : ascii) : Z := Z.of_nat (nat_of_ascii c).

(** [str.isspace] / [\s] on one character. *)
Definition is_space (c : ascii) : bool :=
  let n := code c in
  ((9 <=? n) && (n <=? 13)) || ((28 <=? n) && (n <=? 32))
  || (n =? 133) || (n =? 160).

(** [\d] on one character, with the digit's value. *)
Definition digit_value (c : ascii) : option Z :=
  let n := code c in
  if (48 <=? n) && (n <=? 57) then Some (n - 48) else None.

Definition is_digit (c : ascii) : bool :=
  match digit_value c with Some _ => true | None => false end.

Fixpoint lstrip (s : string) : string :=
  match s with
  | EmptyString => EmptyString
  | String c s' => if is_space c then lstrip s' else s
  end.

Fixpoint rstrip (s : string) : string :=
  match s with
  | EmptyString => EmptyString
  | String c s' =>
      match rstrip s' with
      | EmptyString => if is_space c then EmptyString else String c EmptyString
      | r => String c r
      end
  end.

(** [s.strip()] *)
Definition strip (s : string) : string := rstrip (lstrip s).

(** [s.startswith(p)] *)
Definition startswith (p s : string) : bool := String.prefix p s.

(** [sub in s] *)
Fixpoint contains (sub s : string) : bool :=
  startswith sub s ||
  match s with
  | EmptyString => false
  | String _ s' => contains sub s'
  end.

(** The rest of [s] after the literal [p], when [s] starts with [p]. *)
Fixpoint drop_prefix (p s : string) : option string :=
  match p, s with
  | EmptyString, _ => Some s
  | String a p', String b s' =>
      if Ascii.eqb a b then drop_prefix p' s' else None
  | String _ _, EmptyString => None
  end.

(** The longest run of white space at the head of [s], removed. *)
Fixpoint skip_spaces (s : string) : string :=
  match s with
  | String c s' => if is_space c then skip_spaces s' else s
  | EmptyString => EmptyString
  end.

(** [\s+], greedy: at least one white-space character. *)
Definition spaces1 (s : string) : option string :=
  match s with
  | String c s' => if is_space c then Some (skip_spaces s') else None
  | EmptyString => None
  end.

(** The longest run of digits at the head of [s]: its value as [int]
    reads it (most significant digit first, on top of [acc]) and the rest. *)
Fixpoint read_digits (acc : Z) (s : string) : Z * string :=
  match s with
  | String c s' =>
      match digit_value c with
      | Some d => read_digits (10 * acc + d) s'
      | None => (acc, s)
      end
  | EmptyString => (acc, EmptyString)
  end.

(** The longest run of digits at the head of [s], and the rest. *)
Fixpoint span_digits (s : string) : string * string :=
  match s with
  | String c s' =>
      if is_digit c then
        let gr := span_digits s' in (String c gr.1, gr.2)
      else (EmptyString, s)
  | EmptyString => (EmptyString, EmptyString)
  end.

(** [(\d+)], greedy: the group, of at least one digit, and the rest. *)
Definition digits1 (s : string) : option (string * string) :=
  match s with
  | String c _ => if is_digit c then Some (span_digits s) else None
  | EmptyString => None
  end.

(** [re.search]: the match at the leftmost position where one exists.
    [m] is the matcher of the pattern anchored at the head of its input. *)
Fixpoint re_search {A} (m : string -> option A) (s : string) : option A :=
  match m s with
  | Some a => Some a
  | None =>
      match s with
      | EmptyString => None
      | String _ s' => re_search m s'
      end
  end.

(** [re.split(r'\s+', s)]: the pieces between maximal runs of white space;
    a run at either end of [s] leaves an empty piece there, and a string
    without white space (the empty one included) is a single piece. *)
Fixpoint re_split_ws (s : string) : list string :=
  match s with
  | EmptyString => [EmptyString]
  | String c s' =>
      if is_space c then
        match s' with
        | String c' _ =>
            if is_space c' then re_split_ws s' else EmptyString :: re_split_ws s'
        | EmptyString => EmptyString :: re_split_ws s'
        end
      else
        match re_split_ws s' with
        | p :: ps => String c p :: ps
        | [] => [String c EmptyString]
        end
  end.

End Text.
Import Text.

(** ** Data model *)

(** The keys of a cell: '在线', '离线', '静默'. *)
Inductive key := Online | Offline | Silent.

(** One cell [{'在线': _, '离线': _, '静默': _}]. *)
Record counts := Counts { online : Z; offline : Z; silent : Z }.

Definition zero_counts : counts := Counts 0 0 0.

(** [cell[k]] *)
Definition field (k : key) (c : counts) : Z :=
  match k with
  | Online => online c
  | Offline => offline c
  | Silent => silent c
  end.

(** [cell[k] += 1] *)
Definition bump (k : key) (c : counts) : counts :=
  match k with
  | Online => Counts (online c + 1) (offline c) (silent c)
  | Offline => Counts (online c) (offline c + 1) (silent c)
  | Silent => Counts (online c) (offline c) (silent c + 1)
  end.

Abbreviation table := (gmap Z (gmap Z counts)).

(** The exceptions [parse_epon_data] can raise. *)
Inductive exc := ValueError | KeyError.

Inductive result (A : Type) : Type :=
  | Ok (a : A)
  | Raise (e : exc).
Arguments Ok {A} a.
Arguments Raise {A} e.

#[global] Instance result_bind : MBind result := fun A B f r =>
  match r with
  | Ok a => f a
  | Raise e => Raise e
  end.

#[global] Instance result_fmap : FMap result := fun A B f r =>
  match r with
  | Ok a => Ok (f a)
  | Raise e => Raise e
  end.

(** [sys.get_int_max_str_digits()] at its default. *)
Definition int_max_str_digits : Z := 4300.

(** [int(g)] for a group [g] of digits: the interpreter refuses a group
    longer than its limit, leading zeros included. *)
Definition int (g : string) : result Z :=
  if int_max_str_digits <? Z.of_nat (String.length g) then Raise ValueError
  else Ok (read_digits 0 g).1.

(** ** The parser: [parse_epon_data] *)

(** [{s: {p: {'在线': 0, '离线': 0, '静默': 0} for p in range(1, 25)}
        for s in range(2, 8)}] *)
Definition new_row : gmap Z counts :=
  list_to_map ((fun p => (p, zero_counts)) <$> seqZ 1 24).

Definition new_slot_data : table :=
  list_to_map ((fun s => (s, new_row)) <$> seqZ 2 6).

(** [slot_data[s][p][k] += 1]; a missing key raises [KeyError]. *)
Definition incr (t : table) (s p : Z) (k : key) : result table :=
  match t !! s with
  | None => Raise KeyError
  | Some row =>
      match row !! p with
      | None => Raise KeyError
      | Some c => Ok (<[s := <[p := bump k c]> row]> t)
      end
  end.

(** Truth value of [current_slot] / [current_pon]: [None] and [0] are false. *)
Definition truthy (v : option Z) : bool :=
  match v with
  | Some n => negb (n =? 0)
  | None => false
  end.

(** [2 <= current_slot <= 7] *)
Definition slot_in_range (v : option Z) : bool :=
  match v with
  | Some n => (2 <=? n) && (n <=? 7)
  | None => false
  end.

(** [dis onu slot\s+(\d+)] anchored at the head of [s]: [group(1)].
    White space and digits are disjoint classes, so the greedy run of
    [\s+] is the only one after which [\d+] can match. *)
Definition match_slot (s : string) : option string :=
  r ← drop_prefix "dis onu slot" s;
  r ← spaces1 r;
  fst <$> digits1 r.

(** [Olt\d+/0/(\d+)] anchored at the head of [s]: [group(1)].
    ['/'] is no digit, so the greedy run of the first [\d+] is the only one
    after which [/0/] can match. *)
Definition match_olt (s : string) : option string :=
  r ← drop_prefix "Olt" s;
  r ← snd <$> digits1 r;
  r ← drop_prefix "/0/" r;
  fst <$> digits1 r.

(** ['在线' if state == 'Up' else '离线' if state == 'Offline'
     else '静默' if state == 'Silent' else None] *)
Definition state_key (state : string) : option key :=
  if String.eqb state "Up" then Some Online
  else if String.eqb state "Offline" then Some Offline
  else if String.eqb state "Silent" then Some Silent
  else None.

Definition header_words : list string :=
  ["State"; "MAC"; "LOID"; "LLID"; "Port"]%string.

(** What one iteration of the loop does. *)
Inductive effect :=
  | SetSlot (n : Z)            (* current_slot = n *)
  | SetPon (n : Z)             (* current_pon = n *)
  | Count (s p : Z) (k : key)  (* slot_data[s][p][k] += 1 *)
  | Abort (e : exc)            (* int(match.group(1)) raises *)
  | Skip.

(** [x = int(match.group(1))], where [target n] is the effect [x = n]. *)
Definition assign_int (target : Z -> effect) (g : string) : effect :=
  match int g with
  | Ok n => target n
  | Raise e => Abort e
  end.

(** The body of [for line in content], as the effect it selects. *)
Definition line_effect (current_slot current_pon : option Z) (raw : string)
  : effect :=
  let line := strip raw in
  if contains "dis onu slot" line then
    match re_search match_slot line with
    | Some g => assign_int SetSlot g
    | None => Skip
    end
  else if truthy current_slot && slot_in_range current_slot
          && contains "Olt" line && contains "/0/" line then
    match re_search match_olt line with
    | Some g => assign_int SetPon g
    | None => Skip
    end
  else if truthy current_slot && truthy current_pon
          && negb (String.eqb line "") && negb (startswith "-" line) then
    if existsb (fun k => contains k line) header_words then Skip
    else
      let parts := re_split_ws line in
      if (2 <=? length parts)%nat then
        let state := nth (length parts - 2) parts ""%string in
        match state_key state, current_slot, current_pon with
        | Some k, Some s, Some p => Count s p k
        | _, _, _ => Skip
        end
      else Skip
  else Skip.

Record pstate := PState {
  slot_data : table;
  current_slot : option Z;
  current_pon : option Z
}.

Definition apply_effect (st : pstate) (e : effect) : result pstate :=
  match e with
  | SetSlot n => Ok (PState (slot_data st) (Some n) (current_pon st))
  | SetPon n => Ok (PState (slot_data st) (current_slot st) (Some n))
  | Count s p k =>
      t ← incr (slot_data st) s p k;
      Ok (PState t (current_slot st) (current_pon st))
  | Abort e => Raise e
  | Skip => Ok st
  end.

Definition loop_body (st : pstate) (raw : string) : result pstate :=
  apply_effect st (line_effect (current_slot st) (current_pon st) raw).

Fixpoint loop (st : pstate) (content : list string) : result pstate :=
  match content with
  | [] => Ok st
  | raw :: rest => st' ← loop_body st raw; loop st' rest
  end.

Definition init_state : pstate := PState new_slot_data None None.

(** [content] is what the three decoding attempts leave: [None] when every
    one of them raised, the lines of the file otherwise.  [not content]
    holds for [None] and for the empty list. *)
Definition parse_epon_data (content : option (list string)) : result table :=
  match content with
  | None | Some [] => Raise ValueError
  | Some lines => slot_data <$> loop init_state lines
  end.

(** The effects of a whole run, iteration by iteration, from the values
    [current_slot] and [current_pon] hold before the first line. *)
Fixpoint effects (cs cp : option Z) (content : list string) : list effect :=
  match content with
  | [] => []
  | raw :: rest =>
      let e := line_effect cs cp raw in
      e :: effects (match e with SetSlot n => Some n | _ => cs end)
                   (match e with SetPon n => Some n | _ => cp end) rest
  end.

#[global] Instance key_eq_dec : EqDecision key.
Proof. solve_decision. Defined.

#[global] Instance exc_eq_dec : EqDecision exc.
Proof. solve_decision. Defined.

#[global] Instance counts_eq_dec : EqDecision counts.
Proof. solve_decision. Defined.

#[global] Instance effect_eq_dec : EqDecision effect.
Proof. solve_decision. Defined.

(** How many iterations of a run did [slot_data[s][p][k] += 1]. *)
Definition hits (s p : Z) (k : key) (es : list effect) : Z :=
  Z.of_nat (length (filter (fun e => e = Count s p k) es)).

(** The iteration with effect [e] on a table of the grid does not raise:
    [int] returned, and the cell of an increment exists. *)
Definition passes (e : effect) : Prop :=
  match e with
  | Count s p _ => 2 <= s <= 7 /\ 1 <= p <= 24
  | Abort _ => False
  | _ => True
  end.

(** The exception it raises otherwise. *)
Definition failure (e : effect) : option exc :=
  match e with
  | Count s p _ =>
      if bool_decide (2 <= s <= 7 /\ 1 <= p <= 24) then None else Some KeyError
  | Abort x => Some x
  | _ => None
  end.

(** The exception of the first iteration of a run that raises. *)
Fixpoint first_failure (es : list effect) : option exc :=
  match es with
  | [] => None
  | e :: es' =>
      match failure e with
      | Some x => Some x
      | None => first_failure es'
      end
  end.

(** ** The report: the counters of [generate_excel_report] *)

(** [slot_data.get(slot_num, {})] *)
Definition slot_info_of (t : table) (slot_num : Z) : gmap Z counts :=
  default ∅ (t !! slot_num).

(** [slot_info.get(pon_id, {}).get(k, 0)] *)
Definition get_count (slot_info : gmap Z counts) (pon_id : Z) (k : key) : Z :=
  from_option (field k) 0 (slot_info !! pon_id).

(** The [has_data] flag after the scan of [range(1, 25)]. *)
Definition has_data (slot_info : gmap Z counts) : bool :=
  existsb (fun pon_id =>
             (0 <? get_count slot_info pon_id Online)
             || (0 <? get_count slot_info pon_id Offline)
             || (0 <? get_count slot_info pon_id Silent))
          (seqZ 1 24).

(** [is_idle = slot_info.get(pon_id, {}).get('在线', 0) == 0] *)
Definition is_idle (slot_info : gmap Z counts) (pon_id : Z) : bool :=
  get_count slot_info pon_id Online =? 0.

(** [range(start, stop, step)] for a positive [step]. *)
Definition py_range (start stop step : Z) : list Z :=
  (fun i => start + step * i) <$> seqZ 0 ((stop - start + step - 1) / step).

(** [[range(1, 24, 2), range(2, 25, 2)]] *)
Definition groups : list (list Z) := [py_range 1 24 2; py_range 2 25 2].

(** The row labels "PON", "在线", "离线", "静默", "空闲". *)
Inductive label := L_pon | L_online | L_offline | L_silent | L_idle.

Definition rows : list label := [L_pon; L_online; L_offline; L_silent; L_idle].

(** The value of [total_idle_count] after the loop over the slots: a slot
    without data is skipped before any of its rows is written. *)
Definition total_idle_count (t : table) : Z :=
  foldl (fun total slot_num =>
           let slot_info := slot_info_of t slot_num in
           if has_data slot_info then
             foldl (fun total group =>
               foldl (fun total lbl =>
                 foldl (fun total pon_id =>
                          match lbl with
                          | L_idle =>
                              if is_idle slot_info pon_id then total + 1
                              else total
                          | _ => total
                          end) total group) total rows) total groups
           else total)
        0 (seqZ 2 6).

(** The queries of the report on a table. *)
Definition get (t : table) (s p : Z) : option counts := t !! s ≫= (.!! p).

Definition isIdle (t : table) (s p : Z) : bool := is_idle (slot_info_of t s) p.

Definition hasAnyData (t : table) (s : Z) : bool := has_data (slot_info_of t s).

(** The pairs of the 6-by-24 grid. *)
Definition grid : list (Z * Z) :=
  s ← seqZ 2 6; p ← seqZ 1 24; [(s, p)].

(** The idle count as the availability report is described: every pair of
    the grid whose online count is 0. *)
Definition whole_grid_idle_count (t : table) : Z :=
  Z.of_nat (length (filter (fun sp => isIdle t sp.1 sp.2 = true) grid)).

(** The same count over the slots that have data only. *)
Definition shown_idle_count (t : table) : Z :=
  Z.of_nat (length (filter (fun sp => hasAnyData t sp.1 = true
                                      /\ isIdle t sp.1 sp.2 = true) grid)).

(** ** Scenarios *)

Definition doc_display : list string :=
  ["display onu slot 3"; "-- Olt3/0/5 --"; "aaaa-bbbb-cccc Onu3/5/1 Up 101";
   "aaaa-bbbb-cccd Onu3/5/2 Offline 102"]%string.

Definition doc_dis : list string :=
  ["dis onu slot 3"; "-- Olt3/0/5 --"; "aaaa-bbbb-cccc Onu3/5/1 Up 101";
   "aaaa-bbbb-cccd Onu3/5/2 Offline 102"]%string.

(** What the end-to-end scenario expects of the table parsed from [doc]. *)
Definition scenario_holds (doc : list string) : Prop :=
  exists t,
    parse_epon_data (Some doc) = Ok t
    /\ get t 3 5 = Some (Counts 1 1 0)
    /\ isIdle t 3 5 = false
    /\ hasAnyData t 3 = true
    /\ forall s p, 2 <= s <= 7 -> 1 <= p <= 24 -> (s, p) <> (3, 5) ->
         get t s p = Some zero_counts /\ isIdle t s p = true.

Definition doc_port25 : list string :=
  ["dis onu slot 3"; "-- Olt3/0/25 --"; "aaaa-bbbb-cccc Onu3/25/1 Up 101"]%string.

Definition doc_stale_pon : list string :=
  ["dis onu slot 3"; "-- Olt3/0/5 --"; "dis onu slot 9";
   "aaaa-bbbb-cccc Onu9/5/1 Up 101"]%string.

(** A number of 4301 digits, and a marker line that holds it. *)
Definition long_number : string :=
  string_of_list_ascii (replicate 4301 "7"%char).

Definition doc_long_number : list string :=
  [("dis onu slot " +:+ long_number)%string].

(** The table a document parses to; the empty dict when the call raises. *)
Definition the_table (doc : list string) : table :=
  match parse_epon_data (Some doc) with
  | Ok t => t
  | Raise _ => ∅
  end.

Definition table_idle_example : table :=
  <[2 := <[1 := Counts 0 5 2]> (<[2 := Counts 1 0 0]> new_row)]> new_slot_data.

(** ** Data lines *)

(** A string of white space only. *)
Fixpoint all_space (s : string) : bool :=
  match s with
  | EmptyString => true
  | String c s' => is_space c && all_space s'
  end.

(** A string without white space. *)
Fixpoint no_space (s : string) : bool :=
  match s with
  | EmptyString => true
  | String c s' => negb (is_space c) && no_space s'
  end.

(** A token of a line: at least one character, none of them white space. *)
Definition token (s : string) : Prop :=
  s <> EmptyString /\ no_space s = true.

(** What separates two tokens: at least one character of white space. *)
Definition separator (s : string) : Prop :=
  s <> EmptyString /\ all_space s = true.

(** The tokens of [front], each followed by its separator, then [rest]. *)
Fixpoint join (front : list (string * string)) (rest : string) : string :=
  match front with
  | [] => rest
  | ts :: front' => (ts.1 +:+ ts.2 +:+ join front' rest)%string
  end.

(** A line of at least two tokens, as the device prints it: indentation,
    the tokens of [front] with their separators, the last two tokens
    [state] and [last] with the separator between them, and what trails
    the line (blanks, the line end). *)
Definition token_line (lead : string) (front : list (string * string))
    (state sep last trail : string) : string :=
  (lead +:+ join front (state +:+ sep +:+ last) +:+ trail)%string.

(** The state a line shows for the count it adds to. *)
Definition key_token (k : key) : string :=
  match k with
  | Online => "Up"
  | Offline => "Offline"
  | Silent => "Silent"
  end.

(** The iteration on [raw] made the cell of (s, p) hold [c'] and did
    nothing else: every other cell, [current_slot] and [current_pon] are
    as before. *)
Definition counted (st : pstate) (raw : string) (s p : Z) (c' : counts)
  : Prop :=
  exists t',
    loop_body st raw = Ok (PState t' (current_slot st) (current_pon st))
    /\ get t' s p = Some c'
    /\ forall s' p', (s', p') <> (s, p) -> get t' s' p' = get (slot_data st) s' p'.

(** ** Tallies *)

(** The cell of the pair (s, p) after the increments of the run [es] on a
    fresh table: one count per key inside the grid, no cell outside. *)
Definition cell_of (es : list effect) (s p : Z) : option counts :=
  if bool_decide (2 <= s <= 7 /\ 1 <= p <= 24) then
    Some (Counts (hits s p Online es) (hits s p Offline es) (hits s p Silent es))
  else None.

(** ** The parser over a store of cell objects

    In Python the table is a graph of dict objects.  The innermost dicts
    are the only objects [parse_epon_data] mutates after it has built the
    table, so they are the ones modelled by identity: a store lists the
    cell objects that exist, a cell's address is its index, and rows hold
    addresses.  A call allocates its 144 cells at the end of the store it
    is given, which is how a second call sees what a first one left. *)

Module Heap.

Abbreviation heap := (list counts).
Abbreviation table_ref := (gmap Z (gmap Z nat)).

(** [{p: {'在线': 0, '离线': 0, '静默': 0} for p in range(1, 25)}]:
    a new cell object for every key. *)
Definition alloc_row (h : heap) : heap * gmap Z nat :=
  foldl (fun hr p => (hr.1 ++ [zero_counts], <[p := length hr.1]> hr.2))
        (h, ∅) (seqZ 1 24).

(** [{s: {...} for s in range(2, 8)}] *)
Definition alloc_table (h : heap) : heap * table_ref :=
  foldl (fun ht s => let hr := alloc_row ht.1 in (hr.1, <[s := hr.2]> ht.2))
        (h, ∅) (seqZ 2 6).

(** [slot_data[s][p][k] += 1] on the cell object the row refers to. *)
Definition incr (h : heap) (t : table_ref) (s p : Z) (k : key) : result heap :=
  match t !! s with
  | None => Raise KeyError
  | Some row =>
      match row !! p with
      | None => Raise KeyError
      | Some l => Ok (alter (bump k) l h)
      end
  end.

Record hstate := HState {
  store : heap;
  slot_data : table_ref;
  current_slot : option Z;
  current_pon : option Z
}.

Definition apply_effect (st : hstate) (e : effect) : result hstate :=
  match e with
  | SetSlot n => Ok (HState (store st) (slot_data st) (Some n) (current_pon st))
  | SetPon n => Ok (HState (store st) (slot_data st) (current_slot st) (Some n))
  | Count s p k =>
      h ← incr (store st) (slot_data st) s p k;
      Ok (HState h (slot_data st) (current_slot st) (current_pon st))
  | Abort e => Raise e
  | Skip => Ok st
  end.

Definition loop_body (st : hstate) (raw : string) : result hstate :=
  apply_effect st (line_effect (current_slot st) (current_pon st) raw).

Fixpoint loop (st : hstate) (content : list string) : result hstate :=
  match content with
  | [] => Ok st
  | raw :: rest => st' ← loop_body st raw; loop st' rest
  end.

(** A call in store [h]: the store it leaves and the table it returns. *)
Definition parse_epon_data (h : heap) (content : option (list string))
  : result (heap * table_ref) :=
  let ht := alloc_table h in
  match content with
  | None | Some [] => Raise ValueError
  | Some lines =>
      (fun st => (store st, slot_data st)) <$> loop (HState ht.1 ht.2 None None) lines
  end.

(** The counts a table holds, read through its references in store [h];
    a reference to no cell object reads as a missing key. *)
Definition view (h : list counts) (t : gmap Z (gmap Z nat)) : table :=
  (fun row : gmap Z nat => omap (fun l : nat => h !! l) row) <$> t.

(** The cell object the pair (s, p) of a table refers to. *)
Definition cell_ref (t : gmap Z (gmap Z nat)) (s p : Z) : option nat :=
  t !! s ≫= (.!! p).

(** The cells of [t] are objects of [h'] that did not exist in [h], and no
    two pairs of [t] share one. *)
Record fresh_cells (h h' : list counts) (t : gmap Z (gmap Z nat)) : Prop := {
  fresh_bound : forall s p l,
    cell_ref t s p = Some l -> (length h <= l < length h')%nat;
  fresh_inj : forall s p s' p' l,
    cell_ref t s p = Some l -> cell_ref t s' p' = Some l -> s = s' /\ p = p'
}.

(** What holds of the store and the row while a row is built from store
    [h], after the keys [seen]. *)
Definition row_inv (h : list counts) (seen : list Z)
    (acc : list counts * gmap Z nat) : Prop :=
  acc.1 = h ++ replicate (length seen) zero_counts
  /\ (forall p, is_Some (acc.2 !! p) <-> p ∈ seen)
  /\ (forall p l, acc.2 !! p = Some l -> (length h <= l < length acc.1)%nat)
  /\ (forall p p' l, acc.2 !! p = Some l -> acc.2 !! p' = Some l -> p = p').

(** The same while the table is built, after the slots [seen]. *)
Definition table_inv (h : list counts) (seen : list Z)
    (acc : list counts * gmap Z (gmap Z nat)) : Prop :=
  (exists n, acc.1 = h ++ replicate n zero_counts)
  /\ (forall s, is_Some (acc.2 !! s) <-> s ∈ seen)
  /\ (forall s row, acc.2 !! s = Some row ->
        forall p, is_Some (row !! p) <-> p ∈ seqZ 1 24)
  /\ fresh_cells h acc.1 acc.2.

End Heap.

(** A store state and a pure state that hold the same counts, the cells
    of the store state being new since store [h0]. *)
Definition sim (h0 : list counts) (hs : Heap.hstate) (ps : pstate) : Prop :=
  Heap.view (Heap.store hs) (Heap.slot_data hs) = slot_data ps
  /\ Heap.current_slot hs = current_slot ps
  /\ Heap.current_pon hs = current_pon ps
  /\ Heap.fresh_cells h0 (Heap.store hs) (Heap.slot_data hs).

(** ** The outcome of a run, in closed form *)

#[global] Instance passes_dec (e : effect) : Decision (passes e).
Proof. destruct e; simpl; apply _. Defined.

(** The table whose cells are the tallies of the run [es]. *)
Definition tally_row (es : list effect) (s : Z) : gmap Z counts :=
  list_to_map
    ((fun p => (p, Counts (hits s p Online es) (hits s p Offline es)
                          (hits s p Silent es))) <$> seqZ 1 24).

Definition tally_table (es : list effect) : table :=
  list_to_map ((fun s => (s, tally_row es s)) <$> seqZ 2 6).

(** The iteration did an increment. *)
Definition is_count (e : effect) : bool :=
  match e with
  | Count _ _ _ => true
  | _ => false
  end.

(** The sum of the three counts of every pair of the grid. *)
Definition cell_sum (t : table) (sp : Z * Z) : Z :=
  get_count (slot_info_of t sp.1) sp.2 Online
  + get_count (slot_info_of t sp.1) sp.2 Offline
  + get_count (slot_info_of t sp.1) sp.2 Silent.

Definition table_sum (t : table) : Z :=
  foldr (fun sp acc => cell_sum t sp + acc) 0 grid.

(** What one iteration adds to the counts of the pair [sp]. *)
Definition effect_adds (e : effect) (sp : Z * Z) : Z :=
  match e with
  | Count s p _ => if decide (sp = (s, p)) then 1 else 0
  | _ => 0
  end.

(** [l'] is [l] between two runs of white space (indentation, line end). *)
Definition padded (l l' : string) : Prop :=
  exists pre post,
    all_space pre = true /\ all_space post = true
    /\ l' = (pre +:+ l +:+ post)%string.

(** Lines that never take part in the counts: blank lines, separator
    lines, and rows that show one of the header words. *)
Definition quiet_line (raw : string) : bool :=
  String.eqb (strip raw) ""
  || startswith "-" (strip raw)
  || existsb (fun k => contains k (strip raw)) header_words.

Definition doc_padded : list string :=
  ["  dis onu slot 3 "; " -- Olt3/0/5 --"; "aaaa-bbbb-cccc Onu3/5/1 Up 101  ";
   "  aaaa-bbbb-cccd Onu3/5/2 Offline 102"]%string.

(** ** The worksheet of [generate_excel_report]

    The values the function writes, cell by cell, in the order it writes
    them.  Fonts, fills, borders, alignments and column widths carry no
    value and are left out; the calls of [merge_cells] are recorded as
    ranges.  The title and the statistics line are strings built from the
    date of the day: the title is one constant, the statistics line keeps
    the number it prints. *)

#[global] Instance label_eq_dec : EqDecision label.
Proof. solve_decision. Defined.

Module Report.

(** How many ports of a list are idle. *)
Definition idle_in (slot_info : gmap Z counts) (ports : list Z) : Z :=
  Z.of_nat (length (filter (fun p => is_idle slot_info p = true) ports)).

Inductive value :=
  | V_title                 (* "统计信息(生成日期: ...)" *)
  | V_label (l : label)     (* "PON", "在线", "离线", "静默", "空闲" *)
  | V_int (n : Z)
  | V_yes                   (* "是" *)
  | V_no                    (* "否" *)
  | V_slot_name (s : Z)     (* slot_names[s] *)
  | V_stat (total : Z)      (* "截止...统计该设备可利用PON口数量：{total}" *)
  | V_note (i : nat).       (* notes[i] *)

Record wstate := WState {
  cells : gmap (Z * Z) value;       (* (row, column) to value *)
  merged : list (Z * Z * Z * Z);    (* start row, start column, end row, end column *)
  current_row : Z;
  total_idle_count : Z
}.

(** [ws.cell(row=r, column=c, value=v)] / [ws.cell(row=r, column=c).value = v] *)
Definition set_cell (k : Z * Z) (v : value) (st : wstate) : wstate :=
  WState (<[k := v]> (cells st)) (merged st) (current_row st) (total_idle_count st).

Definition merge_cells (range : Z * Z * Z * Z) (st : wstate) : wstate :=
  WState (cells st) (range :: merged st) (current_row st) (total_idle_count st).

Definition add_rows (n : Z) (st : wstate) : wstate :=
  WState (cells st) (merged st) (current_row st + n) (total_idle_count st).

(** The value of the cell of port [pon_id] on the row labelled [lbl]. *)
Definition port_value (slot_info : gmap Z counts) (lbl : label) (pon_id : Z)
  : value :=
  match lbl with
  | L_pon => V_int pon_id
  | L_online => V_int (get_count slot_info pon_id Online)
  | L_offline => V_int (get_count slot_info pon_id Offline)
  | L_silent => V_int (get_count slot_info pon_id Silent)
  | L_idle => if is_idle slot_info pon_id then V_yes else V_no
  end.

(** [enumerate(group, start)] *)
Definition enumerate (start : Z) (group : list Z) : list (Z * Z) :=
  zip (seqZ start (Z.of_nat (length group))) group.

(** The body of [for idx, pon_id in enumerate(group, start=3)]. *)
Definition write_port (slot_info : gmap Z counts) (lbl : label)
    (st : wstate) (ip : Z * Z) : wstate :=
  let st' := set_cell (current_row st, ip.1) (port_value slot_info lbl ip.2) st in
  match lbl with
  | L_idle =>
      if is_idle slot_info ip.2
      then WState (cells st') (merged st') (current_row st')
                  (total_idle_count st' + 1)
      else st'
  | _ => st'
  end.

(** The body of [for label, data_key in rows]. *)
Definition write_row (slot_info : gmap Z counts) (group : list Z)
    (st : wstate) (lbl : label) : wstate :=
  let st1 := set_cell (current_row st, 2) (V_label lbl) st in
  add_rows 1 (foldl (write_port slot_info lbl) st1 (enumerate 3 group)).

(** The body of [for group in [range(1, 24, 2), range(2, 25, 2)]]. *)
Definition write_group (slot_info : gmap Z counts)
    (st : wstate) (group : list Z) : wstate :=
  foldl (write_row slot_info group) st rows.

(** The body of [for slot_num in range(2, 8)]. *)
Definition write_slot (t : table) (st : wstate) (slot_num : Z) : wstate :=
  let slot_info := slot_info_of t slot_num in
  if has_data slot_info then
    let start_merge_row := current_row st in
    let st1 := foldl (write_group slot_info) st groups in
    set_cell (start_merge_row, 1) (V_slot_name slot_num)
      (merge_cells (start_merge_row, 1, current_row st1 - 1, 1) st1)
  else st.

(** The title, then the slot blocks from row 2 on. *)
Definition write_blocks (t : table) : wstate :=
  foldl (write_slot t)
        (set_cell (1, 1) V_title (merge_cells (1, 1, 1, 14) (WState ∅ [] 2 0)))
        (seqZ 2 6).

(** The statistics line, one row below a free row. *)
Definition write_stat (st : wstate) : wstate :=
  let st1 := add_rows 1 st in
  set_cell (current_row st1, 1) (V_stat (total_idle_count st1))
    (merge_cells (current_row st1, 1, current_row st1, 14) st1).

(** The body of [for note in notes]. *)
Definition write_note (st : wstate) (i : nat) : wstate :=
  let st1 := add_rows 1 st in
  set_cell (current_row st1, 1) (V_note i) st1.

(** [for note in notes]: six lines, the first one empty. *)
Definition write_notes (st : wstate) : wstate :=
  foldl write_note st (seq 0 6).

(** The worksheet at [wb.save]. *)
Definition generate_excel_report (t : table) : wstate :=
  write_notes (write_stat (write_blocks t)).

(** The slots that get a block, in the order of their blocks. *)
Definition shown_slots (t : table) : list Z :=
  filter (fun s => hasAnyData t s = true) (seqZ 2 6).

(** Where the cell of port [p] on the row of index [li] lies in a block
    that starts at row [r0]: odd ports above, even ports below. *)
Definition port_cell (r0 : Z) (li : nat) (p : Z) : Z * Z :=
  (r0 + 5 * ((p + 1) mod 2) + Z.of_nat li, 3 + (p - 1) / 2).

(** The block of slot [s] is on the sheet from row [r0]: its name in the
    merged first column, the row labels of both groups in the second, and
    every port under its label. *)
Definition block_at (t : table) (s r0 : Z) (st : wstate) : Prop :=
  cells st !! (r0, 1) = Some (V_slot_name s)
  /\ (r0, 1, r0 + 9, 1) ∈ merged st
  /\ forall (li : nat) lbl, rows !! li = Some lbl ->
       cells st !! (r0 + Z.of_nat li, 2) = Some (V_label lbl)
       /\ cells st !! (r0 + 5 + Z.of_nat li, 2) = Some (V_label lbl)
       /\ forall p, 1 <= p <= 24 ->
            cells st !! port_cell r0 li p
            = Some (port_value (slot_info_of t s) lbl p).

(** The same block cell by cell.  The labels "PON", "在线", "离线", "静默"
    and "空闲" stand in this order in column 2, from row [r0] for the odd
    ports and from row [r0 + 5] for the even ones.  Port [p] has its column
    at [3 + (p - 1) / 2]; from the first row of its group down it shows its
    number, its online, offline and silent counts, and "是" when its online
    count is 0, "否" otherwise.  A pair without a cell in the table reads
    as (0, 0, 0). *)
Definition block_shown (t : table) (s r0 : Z) (st : wstate) : Prop :=
  cells st !! (r0, 1) = Some (V_slot_name s)
  /\ (r0, 1, r0 + 9, 1) ∈ merged st
  /\ (forall g, g = 0 \/ g = 5 ->
        cells st !! (r0 + g, 2) = Some (V_label L_pon)
        /\ cells st !! (r0 + g + 1, 2) = Some (V_label L_online)
        /\ cells st !! (r0 + g + 2, 2) = Some (V_label L_offline)
        /\ cells st !! (r0 + g + 3, 2) = Some (V_label L_silent)
        /\ cells st !! (r0 + g + 4, 2) = Some (V_label L_idle))
  /\ forall p, 1 <= p <= 24 ->
       let c := default zero_counts (get t s p) in
       let r := r0 + 5 * ((p + 1) mod 2) in
       let col := 3 + (p - 1) / 2 in
       cells st !! (r, col) = Some (V_int p)
       /\ cells st !! (r + 1, col) = Some (V_int (online c))
       /\ cells st !! (r + 2, col) = Some (V_int (offline c))
       /\ cells st !! (r + 3, col) = Some (V_int (silent c))
       /\ cells st !! (r + 4, col)
          = Some (if online c =? 0 then V_yes else V_no).

End Report.

(** ** The idle total of version 1.4

    [generate_excel_report] of [EPON端口统计工具 v1.4.py] writes a block for
    every slot: the same loops without the [has_data] test. *)
Definition total_idle_count_v14 (t : table) : Z :=
  foldl (fun total slot_num =>
           let slot_info := slot_info_of t slot_num in
           foldl (fun total group =>
             foldl (fun total lbl =>
               foldl (fun total pon_id =>
                        match lbl with
                        | L_idle =>
                            if is_idle slot_info pon_id then total + 1
                            else total
                        | _ => total
                        end) total group) total rows) total groups)
        0 (seqZ 2 6).

(** ** The device list: [parse_device_list]

    One device per line, the name before the first IPv4-shaped text of the
    line.  The warnings the function logs are kept beside the devices. *)

Module Devices.

(** [s.split('\n')] *)
Fixpoint split_nl (s : string) : list string :=
  match s with
  | EmptyString => [EmptyString]
  | String c s' =>
      if Ascii.eqb c "010" then EmptyString :: split_nl s'
      else
        match split_nl s' with
        | p :: ps => String c p :: ps
        | [] => [String c EmptyString]
        end
  end.

(** [s.rstrip('-')] *)
Fixpoint rstrip_dash (s : string) : string :=
  match s with
  | EmptyString => EmptyString
  | String c s' =>
      match rstrip_dash s' with
      | EmptyString =>
          if Ascii.eqb c "-" then EmptyString else String c EmptyString
      | r => String c r
      end
  end.

(** The longest run of digits at the head of [s], and the rest. *)
Fixpoint digit_run (s : string) : string * string :=
  match s with
  | String c s' =>
      if is_digit c
      then let dr := digit_run s' in (String c dr.1, dr.2)
      else (EmptyString, s)
  | EmptyString => (EmptyString, EmptyString)
  end.

(** [s[:n]] *)
Fixpoint take_chars (n : nat) (s : string) : string :=
  match n, s with
  | S n', String c s' => String c (take_chars n' s')
  | _, _ => EmptyString
  end.

(** [\d{1,3}\.] at the head of [s]: the digits and the rest.  After fewer
    digits than the run holds the next character is a digit, not the dot,
    so the pattern matches exactly when the whole run has one to three
    digits and a dot follows it. *)
Definition octet_dot (s : string) : option (string * string) :=
  let dr := digit_run s in
  if (1 <=? String.length dr.1)%nat && (String.length dr.1 <=? 3)%nat then
    match dr.2 with
    | String c r => if Ascii.eqb c "." then Some (dr.1, r) else None
    | EmptyString => None
    end
  else None.

(** [\d{1,3}] closing the pattern: greedy, the first three digits at most. *)
Definition last_octet (s : string) : option string :=
  let d := (digit_run s).1 in
  if (1 <=? String.length d)%nat then Some (take_chars 3 d) else None.

(** The text of an address with the four groups [a], [b], [c], [d]. *)
Definition ipv4 (a b c d : string) : string :=
  (a +:+ "." +:+ b +:+ "." +:+ c +:+ "." +:+ d)%string.

(** [(\d{1,3}\.\d{1,3}\.\d{1,3}\.\d{1,3})] at the head of [s]: [group(1)]. *)
Definition match_ip (s : string) : option string :=
  ar ← octet_dot s;
  br ← octet_dot ar.2;
  cr ← octet_dot br.2;
  d ← last_octet cr.2;
  Some (ipv4 ar.1 br.1 cr.1 d).

(** [re.search(ip_pattern, line)]: [line[:match.start()]] and [group(1)]
    of the leftmost match. *)
Fixpoint search_ip (s : string) : option (string * string) :=
  match match_ip s with
  | Some ip => Some (EmptyString, ip)
  | None =>
      match s with
      | EmptyString => None
      | String c s' => (fun pi => (String c pi.1, pi.2)) <$> search_ip s'
      end
  end.

(** The two warnings of the function, with the line they are about. *)
Inductive warning :=
  | EmptyName (line : string)   (* "警告: 设备名为空" *)
  | NoAddress (line : string).  (* "警告: 无法解析行（未找到IP）" *)

(** What the loop body does with one line. *)
Inductive line_result :=
  | Device (device_name ip : string)   (* devices.append((device_name, ip)) *)
  | Warn (w : warning)                 (* self.log(...) *)
  | Blank.                             (* continue *)

Definition parse_line (raw : string) : line_result :=
  let line := strip raw in
  if String.eqb line "" then Blank
  else
    match search_ip line with
    | Some (pre, ip) =>
        let device_name := strip (rstrip_dash pre) in
        if String.eqb device_name "" then Warn (EmptyName line)
        else Device device_name ip
    | None => Warn (NoAddress line)
    end.

Definition step (acc : list (string * string) * list warning) (raw : string)
  : list (string * string) * list warning :=
  match parse_line raw with
  | Device device_name ip => (acc.1 ++ [(device_name, ip)], acc.2)
  | Warn w => (acc.1, acc.2 ++ [w])
  | Blank => acc
  end.

(** The devices returned and the warnings logged, both in line order. *)
Definition parse_device_list (text : string)
  : list (string * string) * list warning :=
  foldl step ([], []) (split_nl (strip text)).

(** A group of an address: one to three digits. *)
Definition octet (a : string) : bool :=
  forallb is_digit (list_ascii_of_string a)
  && (1 <=? String.length a)%nat && (String.length a <=? 3)%nat.

Definition ip_shaped (ip : string) : Prop :=
  exists a b c d,
    octet a = true /\ octet b = true /\ octet c = true /\ octet d = true
    /\ ip = ipv4 a b c d.

(** No character of [s] satisfies [f]. *)
Definition free_of (f : ascii -> bool) (s : string) : bool :=
  forallb (fun c => negb (f c)) (list_ascii_of_string s).

(** A device name that the list format can carry: not empty, without
    white space around it, without line break and without dot, and not
    ending with a dash. *)
Definition plain_name (n : string) : Prop :=
  n <> EmptyString
  /\ strip n = n
  /\ free_of (fun c => Ascii.eqb c "010" || Ascii.eqb c ".") n = true
  /\ rstrip_dash n = n.

(** A device the list format can carry. *)
Definition valid_device (dev : string * string) : Prop :=
  plain_name dev.1 /\ ip_shaped dev.2.

(** The line of a device, [name-address], and the text of a list. *)
Definition device_line (dev : string * string) : string :=
  (dev.1 +:+ "-" +:+ dev.2)%string.

Fixpoint device_text (devs : list (string * string)) : string :=
  match devs with
  | [] => EmptyString
  | [dev] => device_line dev
  | dev :: rest => (device_line dev +:+ String "010" (device_text rest))%string
  end.

End Devices.

(** ** The batch: [process_task]

    A file is its name and what the decoding attempts leave of it.  The
    reports written are listed in order with the file they come from;
    writing a workbook is taken to succeed.  The exception the [except]
    clause logs, if any, is kept beside them. *)

Module Batch.

Abbreviation file := (string * option (list string))%type.

(** [for file_path in files]: the first exception leaves the loop. *)
Fixpoint run (files : list file)
  : list (string * Report.wstate) * option exc :=
  match files with
  | [] => ([], None)
  | f :: rest =>
      match parse_epon_data f.2 with
      | Ok slot_data =>
          let out := run rest in
          ((f.1, Report.generate_excel_report slot_data) :: out.1, out.2)
      | Raise e => ([], Some e)
      end
  end.

(** [if not files: raise ValueError("未找到TXT文件")], then the loop. *)
Definition process_task (files : list file)
  : list (string * Report.wstate) * option exc :=
  match files with
  | [] => ([], Some ValueError)
  | _ => run files
  end.

(** The report of a file that parses. *)
Definition report_of (f : file) : option (string * Report.wstate) :=
  match parse_epon_data f.2 with
  | Ok slot_data => Some (f.1, Report.generate_excel_report slot_data)
  | Raise _ => None
  end.

End Batch.

Definition devs_example : list (string * string) :=
  [("OLT-A7606", "192.168.1.1"); ("B 2", "10.0.0.254")]%string.

Definition batch_example : list Batch.file :=
  [("a.txt", Some doc_dis); ("b.txt", Some doc_port25); ("c.txt", Some doc_dis)]%string.

(** * Proofs *)

(** ** The fresh table *)

Section FreshTable.

Lemma fst_fmap_pair {A B} (f : A -> B) (l : list A) :
  ((fun a => (a, f a)) <$> l).*1 = l.
Proof. induction l as [|a l IH]; [done|]. rewrite !fmap_cons. by f_equal. Qed.

Lemma lookup_const_map {B} (b : B) (lo n k : Z) :
  (list_to_map ((fun a => (a, b)) <$> seqZ lo n) : gmap Z B) !! k
  = if bool_decide (lo <= k < lo + n) then Some b else None.
Proof.
  case_bool_decide as Hk.
  - apply elem_of_list_to_map_1.
    + rewrite (fst_fmap_pair (fun _ => b)). apply NoDup_seqZ.
    + apply list_elem_of_fmap. exists k. split; [done|].
      apply elem_of_seqZ. lia.
  - apply not_elem_of_list_to_map_1.
    rewrite (fst_fmap_pair (fun _ => b)). rewrite elem_of_seqZ. lia.
Qed.

Lemma new_row_lookup p :
  new_row !! p = if bool_decide (1 <= p <= 24) then Some zero_counts else None.
Proof.
  unfold new_row. rewrite lookup_const_map.
  repeat case_bool_decide; done || lia.
Qed.

Lemma new_slot_data_lookup s :
  new_slot_data !! s = if bool_decide (2 <= s <= 7) then Some new_row else None.
Proof.
  unfold new_slot_data. rewrite lookup_const_map.
  repeat case_bool_decide; done || lia.
Qed.

End FreshTable.

Lemma elem_of_grid s p : (s, p) ∈ grid <-> 2 <= s <= 7 /\ 1 <= p <= 24.
Proof.
  unfold grid. rewrite list_elem_of_bind. split.
  - intros (s' & Hin & Hs). apply list_elem_of_bind in Hin as (p' & Hin & Hp).
    apply list_elem_of_singleton in Hin. injection Hin as -> ->.
    apply elem_of_seqZ in Hs, Hp. lia.
  - intros [Hs Hp]. exists s. split; [|apply elem_of_seqZ; lia].
    apply list_elem_of_bind. exists p. split; [|apply elem_of_seqZ; lia].
    by apply list_elem_of_singleton.
Qed.

(** A property of the pairs checked on the list [grid] holds on the grid. *)
Lemma grid_forallb (f : Z -> Z -> bool) :
  forallb (fun sp => f sp.1 sp.2) grid = true ->
  forall s p, 2 <= s <= 7 -> 1 <= p <= 24 -> f s p = true.
Proof.
  intros Hall s p Hs Hp. rewrite forallb_forall in Hall.
  apply (Hall (s, p)). apply list_elem_of_In, elem_of_grid. done.
Qed.
(** ** The end-to-end scenario *)

Lemma doc_display_unchanged :
  parse_epon_data (Some doc_display) = Ok (the_table doc_display)
  /\ get (the_table doc_display) 3 5 = Some zero_counts.
Proof. split; vm_compute; reflexivity. Qed.

(** C1, as stated: the slot marker the parser knows is [dis onu slot], which
    does not occur in [display onu slot 3]; the document of the scenario
    leaves the cell (3,5) at (0,0,0). *)
Lemma C1_display_marker_not_recognised : ~ scenario_holds doc_display.
Proof.
  intros (t & Hparse & Hget & _).
  destruct doc_display_unchanged as [Hp Hg].
  rewrite Hp in Hparse. injection Hparse as <-.
  rewrite Hg in Hget. discriminate.
Qed.

(** C1, amended: with the marker line [dis onu slot 3] the four-line
    document gives get(3,5) = (1,1,0), isIdle(3,5) = false,
    hasAnyData(3) = true, and every other pair of the grid holds (0,0,0)
    and is idle. *)
Theorem C1_scenario_dis_marker : scenario_holds doc_dis.
Proof.
  exists (the_table doc_dis).
  split; [vm_compute; reflexivity|].
  split; [vm_compute; reflexivity|].
  split; [vm_compute; reflexivity|].
  split; [vm_compute; reflexivity|].
  intros s p Hs Hp Hne.
  pose (f := fun s p : Z =>
          bool_decide ((s, p) = (3, 5))
          || (bool_decide (get (the_table doc_dis) s p = Some zero_counts)
              && isIdle (the_table doc_dis) s p)).
  assert (Hf : f s p = true).
  { apply grid_forallb; [|done..]. vm_compute. reflexivity. }
  subst f. cbv beta in Hf. apply orb_true_iff in Hf as [Hf|Hf].
  - apply bool_decide_eq_true in Hf. contradiction.
  - apply andb_true_iff in Hf as [Hf1 Hf2].
    apply bool_decide_eq_true in Hf1. split; [exact Hf1 | exact Hf2].
Qed.

(** ** Increments outside the grid *)

(** C2, at the failing input: a PON header naming port 25, then a state
    line, makes [parse_epon_data] raise [KeyError]; so does a state line
    under a slot marker naming slot 9 when a port is still current. *)
Theorem C2_out_of_range_raises_KeyError :
  parse_epon_data (Some doc_port25) = Raise KeyError
  /\ parse_epon_data (Some doc_stale_pon) = Raise KeyError.
Proof. split; vm_compute; reflexivity. Qed.

(** ** Idle ports *)

(** C7: a pair that has a cell is idle exactly when its online count is 0,
    whatever its offline and silent counts are. *)
Theorem C7_isIdle_iff_online_zero (t : table) (s p : Z) (c : counts) :
  get t s p = Some c ->
  (isIdle t s p = true <-> online c = 0).
Proof.
  unfold get, isIdle, is_idle, get_count, slot_info_of.
  destruct (t !! s) as [row|] eqn:Hrow; simpl; [|done].
  intros ->. simpl. apply Z.eqb_eq.
Qed.

Lemma C7_witness :
  isIdle table_idle_example 2 1 = true
  /\ ~ (isIdle table_idle_example 2 2 = true).
Proof.
  split.
  - apply (C7_isIdle_iff_online_zero table_idle_example 2 1 (Counts 0 5 2));
      vm_compute; reflexivity.
  - intros H.
    apply (C7_isIdle_iff_online_zero table_idle_example 2 2 (Counts 1 0 0)) in H;
      [discriminate | vm_compute; reflexivity].
Defined.

(** ** Numbers too long for [int] *)

Lemma int_raises (g : string) (e : exc) :
  int g = Raise e ->
  e = ValueError /\ int_max_str_digits < Z.of_nat (String.length g).
Proof.
  unfold int. destruct (Z.ltb_spec int_max_str_digits (Z.of_nat (String.length g)));
    [|done].
  by intros [= <-].
Qed.

Lemma int_short (g : string) :
  Z.of_nat (String.length g) <= int_max_str_digits ->
  int g = Ok (read_digits 0 g).1.
Proof.
  intros Hlen. unfold int.
  by destruct (Z.ltb_spec int_max_str_digits (Z.of_nat (String.length g))); [lia|].
Qed.

(** A marker line whose number has 4301 digits: [int] raises, and the
    exception leaves [parse_epon_data]. *)
Lemma long_number_raises_ValueError :
  Z.of_nat (String.length long_number) = 4301
  /\ parse_epon_data (Some doc_long_number) = Raise ValueError.
Proof. split; vm_compute; reflexivity. Qed.

(** ** Slot markers *)

(** C8: a line that contains the slot marker changes at most
    [current_slot]: when the iteration returns, [current_pon] and the table
    are as before.  It returns unless the number behind the marker has more
    digits than [int] converts, in which case [int] raises [ValueError]
    before anything is assigned. *)
Theorem C8_slot_marker_keeps_current_pon (st : pstate) (raw : string) :
  contains "dis onu slot" (strip raw) = true ->
  match loop_body st raw with
  | Ok st' =>
      current_pon st' = current_pon st /\ slot_data st' = slot_data st
  | Raise e =>
      e = ValueError
      /\ exists g, re_search match_slot (strip raw) = Some g
                   /\ 4300 < Z.of_nat (String.length g)
  end.
Proof.
  intros Hmark. unfold loop_body, line_effect. rewrite Hmark.
  destruct (re_search match_slot (strip raw)) as [g|]; [|done].
  unfold assign_int. destruct (int g) as [n|e] eqn:E; simpl; [done|].
  apply int_raises in E as [-> Hlen]. eauto.
Qed.

Lemma C8_witness :
  match loop_body (PState new_slot_data (Some 3) (Some 5)) "dis onu slot 4" with
  | Ok st' => current_pon st' = Some 5 /\ slot_data st' = new_slot_data
  | Raise e =>
      e = ValueError
      /\ exists g, re_search match_slot (strip "dis onu slot 4") = Some g
                   /\ 4300 < Z.of_nat (String.length g)
  end.
Proof.
  apply (C8_slot_marker_keeps_current_pon
           (PState new_slot_data (Some 3) (Some 5)) "dis onu slot 4").
  vm_compute. reflexivity.
Defined.

(** A match of the slot pattern lies on an occurrence of the marker. *)
Lemma drop_prefix_startswith p s r :
  drop_prefix p s = Some r -> startswith p s = true.
Proof.
  unfold startswith. revert s. induction p as [|a p IH]; intros [|b s] H; simpl in *;
    try done.
  destruct (Ascii.eqb_spec a b) as [->|Hne]; [|done].
  destruct (ascii_dec b b); [by apply IH | done].
Qed.

Lemma re_search_contains {A} (m : string -> option A) (p s : string) (a : A) :
  (forall s' a', m s' = Some a' -> startswith p s' = true) ->
  re_search m s = Some a -> contains p s = true.
Proof.
  intros Hm. induction s as [|c s IH]; cbn [re_search contains]; intros H.
  - destruct (m EmptyString) eqn:E; [|done].
    apply Hm in E. by rewrite E.
  - destruct (m (String c s)) eqn:E.
    + apply Hm in E. by rewrite E.
    + rewrite (IH H). apply orb_true_r.
Qed.

Lemma match_slot_startswith s g :
  match_slot s = Some g -> startswith "dis onu slot" s = true.
Proof.
  unfold match_slot. intros H.
  destruct (drop_prefix "dis onu slot" s) as [r|] eqn:E; [|done].
  by apply drop_prefix_startswith in E.
Qed.

Lemma slot_match_is_marker line g :
  re_search match_slot line = Some g -> contains "dis onu slot" line = true.
Proof. apply re_search_contains, match_slot_startswith. Qed.

(** The iteration on a marker line whose number [int] reads as [n]. *)
Lemma marker_line_effect (cs cp : option Z) (raw g : string) (n : Z) :
  re_search match_slot (strip raw) = Some g -> int g = Ok n ->
  line_effect cs cp raw = SetSlot n.
Proof.
  intros Hm Hint. unfold line_effect.
  rewrite (slot_match_is_marker _ _ Hm), Hm. unfold assign_int. by rewrite Hint.
Qed.

(** Without a slot in [2,7] and without a current port, a line that is not
    a slot marker does nothing. *)
Lemma inert_line (st : pstate) (raw : string) :
  contains "dis onu slot" (strip raw) = false ->
  slot_in_range (current_slot st) = false ->
  truthy (current_pon st) = false ->
  loop_body st raw = Ok st.
Proof.
  intros Hmark Hslot Hpon. unfold loop_body, line_effect.
  rewrite Hmark, Hslot, Hpon.
  rewrite !andb_false_r. reflexivity.
Qed.

Lemma inert_lines (st : pstate) (lines : list string) :
  Forall (fun raw => contains "dis onu slot" (strip raw) = false) lines ->
  slot_in_range (current_slot st) = false ->
  truthy (current_pon st) = false ->
  loop st lines = Ok st.
Proof.
  intros Hall Hslot Hpon. induction Hall as [|raw lines Hraw _ IH]; [done|].
  simpl. rewrite inert_line by done. exact IH.
Qed.

(** C3, as stated: the marker line for slot 9 does not leave
    [current_slot] unset. *)
Lemma C3_slot_9_is_stored :
  ~ exists st',
      loop_body init_state "dis onu slot 9" = Ok st'
      /\ current_slot st' = None.
Proof.
  intros (st' & Hstep & Hnone).
  assert (Hrun : loop_body init_state "dis onu slot 9"
                 = Ok (PState new_slot_data (Some 9) None))
    by (vm_compute; reflexivity).
  rewrite Hrun in Hstep. injection Hstep as <-. discriminate.
Qed.

(** C3, amended: in every parse state, a slot-marker line whose digits [g]
    are read by [int] as a number [n] outside [2,7] stores [n] in
    [current_slot] and changes nothing else: [current_pon] and the table
    are as before.  When no port is current, every sequence of lines up to
    the next slot marker is then ignored: the run returns, and the table
    and the parse state are as the marker left them. *)
Theorem C3_out_of_range_slot_ignores_lines
    (st : pstate) (raw g : string) (n : Z) :
  re_search match_slot (strip raw) = Some g ->
  int g = Ok n ->
  ~ (2 <= n <= 7) ->
  exists st',
    loop_body st raw = Ok st'
    /\ current_slot st' = Some n
    /\ current_pon st' = current_pon st
    /\ slot_data st' = slot_data st
    /\ (truthy (current_pon st) = false ->
        forall lines,
          Forall (fun l => contains "dis onu slot" (strip l) = false) lines ->
          loop st' lines = Ok st').
Proof.
  intros Hmatch Hint Hrange.
  exists (PState (slot_data st) (Some n) (current_pon st)).
  split; [|repeat split].
  - unfold loop_body. by rewrite (marker_line_effect _ _ _ _ _ Hmatch Hint).
  - intros Hpon lines Hall. apply inert_lines; simpl; [done| |done].
    apply andb_false_iff. rewrite !Z.leb_gt. lia.
Qed.

Lemma C3_witness :
  exists st',
    loop_body init_state "dis onu slot 9" = Ok st'
    /\ current_slot st' = Some 9
    /\ current_pon st' = current_pon init_state
    /\ slot_data st' = slot_data init_state
    /\ (truthy (current_pon init_state) = false ->
        forall lines,
          Forall (fun l => contains "dis onu slot" (strip l) = false) lines ->
          loop st' lines = Ok st').
Proof.
  apply (C3_out_of_range_slot_ignores_lines init_state "dis onu slot 9" "9" 9).
  - vm_compute. reflexivity.
  - vm_compute. reflexivity.
  - lia.
Defined.

(** ** PON headers *)

Lemma incr_raises_KeyError_only (t : table) s p k e :
  incr t s p k = Raise e -> e = KeyError.
Proof.
  unfold incr. repeat case_match; congruence.
Qed.

(** C10: while [current_slot] is unset or holds a number outside [2,7]
    (0 included), no line, a PON header in particular, is given the effect
    of assigning [current_pon], and an iteration that returns leaves
    [current_pon] as it was; with no port current, a line that is not a
    slot marker leaves the whole state as it was.  An iteration raises only
    [ValueError], on a slot marker whose number [int] refuses, or
    [KeyError], on an increment. *)
Theorem C10_current_pon_needs_slot_in_range (st : pstate) (raw : string) :
  match current_slot st with
  | Some n => ~ (2 <= n <= 7)
  | None => True
  end ->
  (forall n, line_effect (current_slot st) (current_pon st) raw <> SetPon n)
  /\ match loop_body st raw with
     | Ok st' => current_pon st' = current_pon st
     | Raise e =>
         if contains "dis onu slot" (strip raw) then e = ValueError
         else e = KeyError
     end
  /\ (truthy (current_pon st) = false ->
      contains "dis onu slot" (strip raw) = false ->
      loop_body st raw = Ok st).
Proof.
  intros Hout.
  assert (Hslot : slot_in_range (current_slot st) = false).
  { destruct (current_slot st) as [n|]; [|done]. simpl.
    apply andb_false_iff. rewrite !Z.leb_gt. lia. }
  assert (Heff : forall n,
             line_effect (current_slot st) (current_pon st) raw <> SetPon n).
  { intros n. unfold line_effect, assign_int. rewrite Hslot, andb_false_r.
    cbn [andb]. repeat case_match; congruence. }
  split; [exact Heff|]. split; [|intros Hpon Hmark; by apply inert_line].
  unfold loop_body.
  destruct (contains "dis onu slot" (strip raw)) eqn:Hmark.
  - unfold line_effect. rewrite Hmark.
    destruct (re_search match_slot (strip raw)) as [g|]; [|done].
    unfold assign_int. destruct (int g) as [n|e] eqn:E; simpl; [done|].
    by apply int_raises in E as [-> _].
  - assert (Hnab : forall e,
               line_effect (current_slot st) (current_pon st) raw <> Abort e).
    { intros e. unfold line_effect. rewrite Hmark, Hslot, andb_false_r.
      cbn [andb]. repeat case_match; congruence. }
    destruct (line_effect (current_slot st) (current_pon st) raw)
      as [m|m|s p k|e|] eqn:E; simpl; try done.
    + by destruct (Heff m).
    + destruct (incr (slot_data st) s p k) as [t|e] eqn:Hi; simpl; [done|].
      by apply incr_raises_KeyError_only in Hi.
    + by destruct (Hnab e).
Qed.

Lemma C10_witness :
  (forall n, line_effect (Some 9) None "-- Olt9/0/5 --" <> SetPon n)
  /\ match loop_body (PState new_slot_data (Some 9) None) "-- Olt9/0/5 --" with
     | Ok st' => current_pon st' = None
     | Raise e =>
         if contains "dis onu slot" (strip "-- Olt9/0/5 --") then e = ValueError
         else e = KeyError
     end
  /\ (truthy None = false ->
      contains "dis onu slot" (strip "-- Olt9/0/5 --") = false ->
      loop_body (PState new_slot_data (Some 9) None) "-- Olt9/0/5 --"
      = Ok (PState new_slot_data (Some 9) None)).
Proof.
  apply (C10_current_pon_needs_slot_in_range
           (PState new_slot_data (Some 9) None) "-- Olt9/0/5 --").
  simpl. lia.
Defined.

(** ** Data lines *)

Lemma incr_Ok (t : table) (s p : Z) (k : key) (c : counts) :
  get t s p = Some c ->
  exists t',
    incr t s p k = Ok t'
    /\ get t' s p = Some (bump k c)
    /\ (forall s' p', (s', p') <> (s, p) -> get t' s' p' = get t s' p')
    /\ (forall s', is_Some (t' !! s') <-> is_Some (t !! s')).
Proof.
  unfold get, incr. destruct (t !! s) as [row|] eqn:Hrow; simpl; [|done].
  intros Hc. rewrite Hc. eexists. split; [reflexivity|]. split; [|split].
  - rewrite lookup_insert_eq. simpl. by rewrite lookup_insert_eq.
  - intros s' p' Hne. destruct (decide (s' = s)) as [->|Hs].
    + rewrite lookup_insert_eq, Hrow. simpl.
      rewrite lookup_insert_ne; [done | congruence].
    + by rewrite lookup_insert_ne.
  - intros s'. destruct (decide (s' = s)) as [->|Hs].
    + rewrite lookup_insert_eq, Hrow. split; eauto.
    + by rewrite lookup_insert_ne.
Qed.

Lemma state_key_spec (tok : string) :
  state_key tok =
    if decide (tok = "Up"%string) then Some Online
    else if decide (tok = "Offline"%string) then Some Offline
    else if decide (tok = "Silent"%string) then Some Silent
    else None.
Proof.
  unfold state_key.
  repeat (case_decide as H; [apply String.eqb_eq in H; by rewrite H
                            | apply String.eqb_neq in H; rewrite H; clear H]).
  done.
Qed.

(** ** The table is total *)

Section Tally.

Lemma hits_snoc (s p : Z) (k : key) (es : list effect) (e : effect) :
  hits s p k (es ++ [e]) = hits s p k es + (if decide (e = Count s p k) then 1 else 0).
Proof.
  unfold hits. rewrite filter_app, length_app, Nat2Z.inj_add. f_equal.
  rewrite filter_cons, filter_nil. by case_decide.
Qed.

Lemma hits_absent (s p : Z) (k : key) (es : list effect) :
  Count s p k ∉ es -> hits s p k es = 0.
Proof.
  unfold hits. induction es as [|e es IH]; [done|].
  rewrite not_elem_of_cons. intros [Hne Hes].
  rewrite filter_cons. case_decide; [congruence | by apply IH].
Qed.

Lemma hits_nonneg (s p : Z) (k : key) (es : list effect) : 0 <= hits s p k es.
Proof. unfold hits. lia. Qed.

Lemma cell_of_snoc_other (es : list effect) (e : effect) (s p : Z) :
  (forall k, e <> Count s p k) -> cell_of (es ++ [e]) s p = cell_of es s p.
Proof.
  intros Hne. unfold cell_of. rewrite !hits_snoc.
  repeat case_decide; try (exfalso; eapply Hne; eassumption);
    by rewrite !Z.add_0_r.
Qed.

Lemma cell_of_snoc_count (es : list effect) (s p : Z) (k : key) :
  cell_of (es ++ [Count s p k]) s p = bump k <$> cell_of es s p.
Proof.
  unfold cell_of. rewrite !hits_snoc. case_bool_decide; [|done]. simpl.
  destruct k; simpl; repeat case_decide; try congruence;
    by rewrite ?Z.add_0_r.
Qed.

Lemma cell_of_fresh (s p : Z) : get new_slot_data s p = cell_of [] s p.
Proof.
  unfold get, cell_of. rewrite new_slot_data_lookup.
  case_bool_decide as Hs; simpl.
  - rewrite new_row_lookup. repeat case_bool_decide; done || lia.
  - case_bool_decide; [lia | done].
Qed.

(** One iteration keeps the table equal to the tally of the effects so
    far, and returns when its increment addresses a cell. *)
Lemma loop_body_tally (st : pstate) (raw : string) (es : list effect) :
  let e := line_effect (current_slot st) (current_pon st) raw in
  (forall s p, get (slot_data st) s p = cell_of es s p) ->
  passes e ->
  exists st',
    loop_body st raw = Ok st'
    /\ current_slot st' = match e with SetSlot n => Some n | _ => current_slot st end
    /\ current_pon st' = match e with SetPon n => Some n | _ => current_pon st end
    /\ forall s p, get (slot_data st') s p = cell_of (es ++ [e]) s p.
Proof.
  intros e Hinv Hgrid. unfold loop_body. fold e.
  destruct e as [n|n|s p k|x|]; simpl in *; [| | |done|].
  - eexists. repeat split. intros s p. by rewrite cell_of_snoc_other.
  - eexists. repeat split. intros s p. by rewrite cell_of_snoc_other.
  - assert (Hcell : exists c, get (slot_data st) s p = Some c).
    { rewrite Hinv. unfold cell_of. rewrite bool_decide_eq_true_2 by done. eauto. }
    destruct Hcell as [c Hc].
    destruct (incr_Ok _ s p k c Hc) as (t' & -> & Hget & Hother & _). simpl.
    eexists. repeat split. simpl. intros s' p'.
    destruct (decide ((s', p') = (s, p))) as [[= -> ->]|Hne].
    + rewrite cell_of_snoc_count, <- Hinv, Hc. done.
    + rewrite Hother, Hinv by done. symmetry. apply cell_of_snoc_other.
      congruence.
  - eexists. repeat split. intros s p. by rewrite cell_of_snoc_other.
Qed.

Lemma loop_tally (lines : list string) :
  forall (st : pstate) (es : list effect),
    (forall s p, get (slot_data st) s p = cell_of es s p) ->
    Forall passes (effects (current_slot st) (current_pon st) lines) ->
    exists st',
      loop st lines = Ok st'
      /\ forall s p,
           get (slot_data st') s p
           = cell_of (es ++ effects (current_slot st) (current_pon st) lines) s p.
Proof.
  induction lines as [|raw lines IH]; intros st es Hinv Hall; simpl in *.
  - exists st. split; [done|]. intros s p. by rewrite app_nil_r.
  - apply Forall_cons in Hall as [Hgrid Hall].
    destruct (loop_body_tally st raw es Hinv Hgrid) as (st' & -> & Hcs & Hcp & Hinv').
    simpl. rewrite <- Hcs, <- Hcp in Hall |- *.
    destruct (IH st' _ Hinv' Hall) as (st'' & -> & Hfin).
    exists st''. split; [done|]. intros s p.
    rewrite Hfin. by rewrite <- app_assoc.
Qed.

End Tally.

Lemma grid_144 : length grid = 144%nat /\ NoDup grid.
Proof.
  split; [reflexivity|]. apply (bool_decide_unpack _). vm_compute. exact I.
Qed.

(** C5, as stated: an empty document gives no table at all. *)
Lemma C5_empty_document_raises :
  ~ exists t, parse_epon_data (Some []) = Ok t.
Proof. intros [t Ht]. discriminate. Qed.

(** C5, amended: for every document of at least one line on which no
    iteration raises (every number given to [int] has at most 4300 digits
    and every increment addresses a cell of the grid), [parse_epon_data]
    returns a table whose cells are exactly the 144 pairs of the grid; each
    count is the number of increments the run made on it, hence
    non-negative, and a pair that was never incremented holds (0,0,0). *)
Theorem C5_table_total_on_grid (lines : list string) :
  lines <> [] ->
  Forall passes (effects None None lines) ->
  exists t,
    parse_epon_data (Some lines) = Ok t
    /\ (forall s p, is_Some (get t s p) <-> (s, p) ∈ grid)
    /\ length grid = 144%nat /\ NoDup grid
    /\ forall s p, (s, p) ∈ grid ->
         exists c,
           get t s p = Some c
           /\ (forall k, field k c = hits s p k (effects None None lines))
           /\ 0 <= online c /\ 0 <= offline c /\ 0 <= silent c
           /\ ((forall k, Count s p k ∉ effects None None lines) ->
               c = zero_counts).
Proof.
  intros Hne Hall.
  destruct (loop_tally lines init_state [] cell_of_fresh Hall) as (st & Hloop & Hfin).
  simpl in Hfin. exists (slot_data st). split.
  { unfold parse_epon_data. destruct lines; [done|]. by rewrite Hloop. }
  split.
  { intros s p. rewrite Hfin, elem_of_grid. unfold cell_of.
    case_bool_decide; split; intros H'; try done; by destruct H'. }
  split; [apply grid_144|]. split; [apply grid_144|].
  intros s p Hin. apply elem_of_grid in Hin.
  eexists. split.
  { rewrite Hfin. unfold cell_of. by rewrite bool_decide_eq_true_2. }
  split; [by intros []|].
  simpl. repeat split; try apply hits_nonneg.
  intros Hnever. unfold zero_counts. by rewrite !hits_absent.
Qed.

Lemma C5_witness :
  exists t,
    parse_epon_data (Some doc_dis) = Ok t
    /\ (forall s p, is_Some (get t s p) <-> (s, p) ∈ grid)
    /\ length grid = 144%nat /\ NoDup grid
    /\ forall s p, (s, p) ∈ grid ->
         exists c,
           get t s p = Some c
           /\ (forall k, field k c = hits s p k (effects None None doc_dis))
           /\ 0 <= online c /\ 0 <= offline c /\ 0 <= silent c
           /\ ((forall k, Count s p k ∉ effects None None doc_dis) ->
               c = zero_counts).
Proof.
  apply (C5_table_total_on_grid doc_dis).
  - discriminate.
  - replace (effects None None doc_dis)
      with [SetSlot 3; SetPon 5; Count 3 5 Online; Count 3 5 Offline]
      by (vm_compute; reflexivity).
    repeat (apply Forall_cons; split); try apply Forall_nil; simpl; lia || exact I.
Defined.

(** ** The idle total of the report *)

Section IdleTotal.

Lemma foldl_unchanged {A} (l : list A) (acc : Z) :
  foldl (fun total _ => total) acc l = acc.
Proof. induction l; simpl; auto. Qed.

Lemma foldl_count {A} (f : A -> bool) (l : list A) (acc : Z) :
  foldl (fun total x => if f x then total + 1 else total) acc l
  = acc + Z.of_nat (length (filter (fun x => f x = true) l)).
Proof.
  revert acc. induction l as [|x l IH]; intros acc; simpl; [lia|].
  rewrite IH, filter_cons.
  destruct (f x); case_decide; simpl; try congruence; lia.
Qed.

(** The two groups of a slot block are the odd and the even ports. *)
Lemma groups_cover : py_range 1 24 2 ++ py_range 2 25 2 ≡ₚ seqZ 1 24.
Proof.
  apply NoDup_Permutation.
  - apply (bool_decide_unpack _). vm_compute. exact I.
  - apply NoDup_seqZ.
  - intros x. rewrite elem_of_seqZ.
    replace (py_range 1 24 2 ++ py_range 2 25 2)
      with [1; 3; 5; 7; 9; 11; 13; 15; 17; 19; 21; 23;
            2; 4; 6; 8; 10; 12; 14; 16; 18; 20; 22; 24] by reflexivity.
    rewrite !elem_of_cons, elem_of_nil. lia.
Qed.

Lemma slot_block_count (slot_info : gmap Z counts) (total : Z) :
  foldl (fun total group =>
    foldl (fun total lbl =>
      foldl (fun total pon_id =>
               match lbl with
               | L_idle => if is_idle slot_info pon_id then total + 1 else total
               | _ => total
               end) total group) total rows) total groups
  = total
    + Z.of_nat (length (filter (fun p => is_idle slot_info p = true) (seqZ 1 24))).
Proof.
  unfold groups, rows. cbn [foldl].
  rewrite !foldl_unchanged, !foldl_count.
  rewrite <- groups_cover, filter_app, length_app. lia.
Qed.

Lemma slot_pairs_count (t : table) (s : Z) (ports : list Z) :
  length (filter (fun sp : Z * Z => hasAnyData t sp.1 = true
                                 /\ isIdle t sp.1 sp.2 = true)
                 (p ← ports; [(s, p)]))
  = if hasAnyData t s
    then length (filter (fun p => isIdle t s p = true) ports)
    else 0%nat.
Proof.
  induction ports as [|p ports IH].
  - by destruct (hasAnyData t s).
  - rewrite bind_cons, filter_app, length_app, IH, (filter_cons _ p).
    rewrite filter_cons, filter_nil. simpl.
    destruct (hasAnyData t s); repeat case_decide; simpl; try done;
      intuition congruence.
Qed.

Lemma slots_count (t : table) (slots : list Z) (acc : Z) :
  foldl (fun total slot_num =>
           let slot_info := slot_info_of t slot_num in
           if has_data slot_info then
             foldl (fun total group =>
               foldl (fun total lbl =>
                 foldl (fun total pon_id =>
                          match lbl with
                          | L_idle =>
                              if is_idle slot_info pon_id then total + 1
                              else total
                          | _ => total
                          end) total group) total rows) total groups
           else total)
        acc slots
  = acc + Z.of_nat (length (filter (fun sp : Z * Z =>
                                      hasAnyData t sp.1 = true
                                      /\ isIdle t sp.1 sp.2 = true)
                                   (s ← slots; p ← seqZ 1 24; [(s, p)]))).
Proof.
  revert acc. induction slots as [|s slots IH]; intros acc.
  - simpl. lia.
  - cbn [foldl]. rewrite IH, bind_cons, filter_app, length_app, slot_pairs_count.
    cbv zeta. unfold hasAnyData, isIdle.
    destruct (has_data (slot_info_of t s)).
    + rewrite slot_block_count. lia.
    + lia.
Qed.

End IdleTotal.

Lemma parsed_doc_dis_counts :
  total_idle_count (the_table doc_dis) = 23
  /\ whole_grid_idle_count (the_table doc_dis) = 143.
Proof. split; vm_compute; reflexivity. Qed.

(** C4, as stated: on the table parsed from [doc_dis] the report's total is
    23, while 143 pairs of the grid have an online count of 0: the five
    slots that never received data are left out of the total. *)
Lemma C4_total_skips_empty_slots :
  total_idle_count (the_table doc_dis) <> whole_grid_idle_count (the_table doc_dis).
Proof.
  destruct parsed_doc_dis_counts as [-> ->]. discriminate.
Qed.

(** C4, amended: for every table, the report's total is the number of
    pairs of the grid that are idle and whose slot has data; a slot
    without data contributes nothing. *)
Theorem C4_total_idle_over_slots_with_data (t : table) :
  total_idle_count t = shown_idle_count t.
Proof.
  unfold total_idle_count, shown_idle_count, grid.
  rewrite slots_count. lia.
Qed.

(** ** Calls in a shared store *)

Section Allocation.

Local Open Scope nat_scope.

Implicit Types (h : list counts) (row : gmap Z nat) (t : gmap Z (gmap Z nat)).

Lemma row_inv_step h seen acc (p0 : Z) :
  Heap.row_inv h seen acc ->
  Heap.row_inv h (seen ++ [p0])
    (acc.1 ++ [zero_counts], <[p0 := length acc.1]> acc.2).
Proof.
  intros (Hh & Hdom & Hbound & Hinj). unfold Heap.row_inv. simpl.
  split; [|split; [|split]].
  - rewrite Hh, length_app, replicate_add, <- app_assoc. done.
  - intros p.
    rewrite lookup_insert_is_Some, elem_of_app, list_elem_of_singleton, Hdom.
    destruct (decide (p0 = p)); intuition congruence.
  - intros p l H. rewrite length_app. simpl.
    apply lookup_insert_Some in H as [[-> <-]|[_ H]].
    + rewrite Hh, length_app. lia.
    + apply Hbound in H. lia.
  - intros p p' l H1 H2.
    apply lookup_insert_Some in H1 as [[-> <-]|[_ H1]];
      apply lookup_insert_Some in H2 as [[-> Hl]|[_ H2]]; try done.
    + apply Hbound in H2. lia.
    + apply Hbound in H1. lia.
    + by apply (Hinj p p' l).
Qed.

Lemma row_inv_fold h (ps : list Z) :
  forall seen acc,
    Heap.row_inv h seen acc ->
    Heap.row_inv h (seen ++ ps)
      (foldl (fun hr p => (hr.1 ++ [zero_counts], <[p := length hr.1]> hr.2))
             acc ps).
Proof.
  induction ps as [|p0 ps IH]; intros seen acc Hinv; cbn [foldl].
  - by rewrite app_nil_r.
  - rewrite cons_middle, app_assoc. apply IH. by apply row_inv_step.
Qed.

Lemma alloc_row_spec h :
  Heap.row_inv h (seqZ 1 24) (Heap.alloc_row h).
Proof.
  apply (row_inv_fold h (seqZ 1 24) [] (h, ∅)).
  unfold Heap.row_inv. cbn [fst snd length]. split; [|split; [|split]].
  - by rewrite app_nil_r.
  - intros p. rewrite lookup_empty, elem_of_nil. split; [by intros [? ?] | done].
  - intros p l H. by rewrite lookup_empty in H.
  - intros p p' l H. by rewrite lookup_empty in H.
Qed.

Lemma cell_ref_insert t (s0 : Z) row (s p : Z) :
  Heap.cell_ref (<[s0 := row]> t) s p
  = if decide (s0 = s) then row !! p else Heap.cell_ref t s p.
Proof.
  unfold Heap.cell_ref. rewrite lookup_insert. by case_decide.
Qed.

Lemma table_inv_step h seen acc (s0 : Z) :
  Heap.table_inv h seen acc ->
  Heap.table_inv h (seen ++ [s0])
    ((Heap.alloc_row acc.1).1, <[s0 := (Heap.alloc_row acc.1).2]> acc.2).
Proof.
  intros ([n Hh] & Hdom & Hrows & [Hbound Hinj]).
  destruct (alloc_row_spec acc.1) as (Hh' & Hrdom & Hrbound & Hrinj).
  destruct (Heap.alloc_row acc.1) as [h' row]. cbn [fst snd] in *.
  assert (Hlen : length h' = length acc.1 + 24).
  { rewrite Hh', length_app, length_replicate. done. }
  assert (Hacc : length h <= length acc.1).
  { rewrite Hh, length_app. lia. }
  unfold Heap.table_inv. cbn [fst snd]. split; [|split; [|split; [|split]]].
  - exists (n + length (seqZ 1 24)). rewrite Hh', Hh, replicate_add, <- app_assoc. done.
  - intros s.
    rewrite lookup_insert_is_Some, elem_of_app, list_elem_of_singleton, Hdom.
    destruct (decide (s0 = s)); intuition congruence.
  - intros s row' H.
    apply lookup_insert_Some in H as [[-> <-]|[_ H]]; [apply Hrdom|].
    apply (Hrows _ _ H).
  - intros s p l H. rewrite cell_ref_insert in H. case_decide.
    + apply Hrbound in H. lia.
    + apply Hbound in H. lia.
  - intros s p s' p' l H H0.
    rewrite !cell_ref_insert in *.
    destruct (decide (s0 = s)) as [<-|?], (decide (s0 = s')) as [<-|?].
    + split; [done|]. by apply (Hrinj _ _ _ H H0).
    + apply Hrbound in H. apply Hbound in H0. lia.
    + apply Hrbound in H0. apply Hbound in H. lia.
    + by apply (Hinj _ _ _ _ _ H H0).
Qed.

Lemma table_inv_fold h (ss : list Z) :
  forall seen acc,
    Heap.table_inv h seen acc ->
    Heap.table_inv h (seen ++ ss)
      (foldl (fun ht s => let hr := Heap.alloc_row ht.1 in
                          (hr.1, <[s := hr.2]> ht.2)) acc ss).
Proof.
  induction ss as [|s0 ss IH]; intros seen acc Hinv; cbn [foldl].
  - by rewrite app_nil_r.
  - rewrite cons_middle, app_assoc. apply IH. by apply table_inv_step.
Qed.

Lemma alloc_table_spec h :
  Heap.table_inv h (seqZ 2 6) (Heap.alloc_table h).
Proof.
  apply (table_inv_fold h (seqZ 2 6) [] (h, ∅)).
  unfold Heap.table_inv. cbn [fst snd]. split; [|split; [|split; [|split]]].
  - exists 0. by rewrite app_nil_r.
  - intros s. rewrite lookup_empty, elem_of_nil. split; [by intros [? ?] | done].
  - intros s row H. by rewrite lookup_empty in H.
  - intros s p l H. unfold Heap.cell_ref in H. by rewrite lookup_empty in H.
  - intros s p s' p' l H. unfold Heap.cell_ref in H. by rewrite lookup_empty in H.
Qed.

End Allocation.

Section Simulation.

Local Open Scope nat_scope.

Implicit Types (h : list counts) (t : gmap Z (gmap Z nat)).

(** Two tables with the same rows and the same cells are equal. *)
Lemma table_eq (t1 t2 : table) :
  (forall s, is_Some (t1 !! s) <-> is_Some (t2 !! s)) ->
  (forall s p, get t1 s p = get t2 s p) ->
  t1 = t2.
Proof.
  intros Hrows Hget. apply map_eq. intros s.
  specialize (Hrows s). pose proof (Hget s) as Hs. unfold get in Hs.
  destruct (t1 !! s) as [r1|], (t2 !! s) as [r2|]; simpl in *.
  - f_equal. apply map_eq. exact Hs.
  - destruct Hrows as [Hr _]. by destruct Hr.
  - destruct Hrows as [_ Hr]. by destruct Hr.
  - done.
Qed.

Lemma view_rows h t s : is_Some (Heap.view h t !! s) <-> is_Some (t !! s).
Proof. unfold Heap.view. rewrite lookup_fmap. apply fmap_is_Some. Qed.

Lemma view_get h t s p :
  get (Heap.view h t) s p = Heap.cell_ref t s p ≫= (fun l => h !! l).
Proof.
  unfold get, Heap.cell_ref, Heap.view. rewrite lookup_fmap.
  destruct (t !! s) as [row|]; simpl; [apply lookup_omap | done].
Qed.

Lemma incr_None (tb : table) (s p : Z) (k : key) :
  get tb s p = None -> incr tb s p k = Raise KeyError.
Proof.
  unfold get, incr. destruct (tb !! s) as [row|]; simpl; [|done].
  by intros ->.
Qed.

(** The table a call builds reads as the fresh table. *)
Lemma alloc_table_view h :
  Heap.view (Heap.alloc_table h).1 (Heap.alloc_table h).2 = new_slot_data.
Proof.
  destruct (alloc_table_spec h) as ([n Hh] & Hdom & Hrows & [Hbound _]).
  destruct (Heap.alloc_table h) as [h' t]. cbn [fst snd] in *.
  apply table_eq.
  - intros s. rewrite view_rows, Hdom, new_slot_data_lookup, elem_of_seqZ.
    case_bool_decide; split; intros H'; try done; try lia; by destruct H'.
  - intros s p. rewrite view_get, cell_of_fresh.
    unfold cell_of, hits. simpl.
    destruct (Heap.cell_ref t s p) as [l|] eqn:Hl; simpl.
    + pose proof (Hbound _ _ _ Hl) as Hb.
      unfold Heap.cell_ref in Hl.
      destruct (t !! s) as [row|] eqn:Hs; [|done]. simpl in Hl.
      assert (Hsin : s ∈ seqZ 2 6) by (apply Hdom; eauto).
      assert (Hpin : p ∈ seqZ 1 24) by (apply (Hrows _ _ Hs); eauto).
      apply elem_of_seqZ in Hsin, Hpin.
      rewrite bool_decide_eq_true_2 by lia.
      rewrite Hh, lookup_app_r by lia.
      rewrite Hh, length_app, length_replicate in Hb.
      rewrite lookup_replicate_2 by lia. done.
    + case_bool_decide as Hin; [|done]. exfalso.
      assert (Hs : is_Some (t !! s)) by (apply Hdom, elem_of_seqZ; lia).
      destruct Hs as [row Hs].
      assert (Hp : is_Some (row !! p)) by (apply (Hrows _ _ Hs), elem_of_seqZ; lia).
      destruct Hp as [l Hp].
      unfold Heap.cell_ref in Hl. rewrite Hs in Hl. simpl in Hl. congruence.
Qed.

Lemma sim_loop_body h0 hs ps (raw : string) :
  sim h0 hs ps ->
  match Heap.loop_body hs raw, loop_body ps raw with
  | Ok hs', Ok ps' =>
      sim h0 hs' ps'
      /\ Heap.slot_data hs' = Heap.slot_data hs
      /\ forall l, l < length h0 ->
           Heap.store hs' !! l = Heap.store hs !! l
  | Raise e, Raise e' => e = e'
  | _, _ => False
  end.
Proof.
  intros (Hview & Hcs & Hcp & Hfresh).
  unfold Heap.loop_body, loop_body. rewrite Hcs, Hcp.
  destruct (line_effect (current_slot ps) (current_pon ps) raw) as [n|n|s p k|x|];
    cbn [Heap.apply_effect apply_effect];
    [by (unfold sim; simpl; split_and!) | by (unfold sim; simpl; split_and!) |
     | done | by (unfold sim; simpl; split_and!)].
  unfold Heap.incr.
  destruct (Heap.cell_ref (Heap.slot_data hs) s p) as [l|] eqn:Hl.
  - pose proof (Heap.fresh_bound _ _ _ Hfresh _ _ _ Hl) as Hb.
    destruct (lookup_lt_is_Some_2 (Heap.store hs) l) as [c Hc]; [lia|].
    assert (Hget : get (slot_data ps) s p = Some c).
    { rewrite <- Hview, view_get, Hl. exact Hc. }
    destruct (incr_Ok _ s p k c Hget) as (t' & -> & Hnew & Hother & Hrows).
    unfold Heap.cell_ref in Hl.
    destruct (Heap.slot_data hs !! s) as [row|] eqn:Hs; [|done].
    simpl in Hl. rewrite Hl. simpl.
    split; [|split; [done|]].
    + split; [|split; [done|split; [done|]]]; simpl.
      * apply table_eq.
        -- intros s'. by rewrite view_rows, Hrows, <- Hview, view_rows.
        -- intros s' p'. rewrite view_get.
           destruct (decide ((s', p') = (s, p))) as [[= -> ->]|Hne].
           ++ rewrite Hnew. unfold Heap.cell_ref. rewrite Hs. simpl.
              rewrite Hl. simpl. by rewrite list_lookup_alter_eq, Hc.
           ++ rewrite (Hother _ _ Hne), <- Hview, view_get.
              destruct (Heap.cell_ref (Heap.slot_data hs) s' p') as [l'|] eqn:Hl';
                [|done]. simpl.
              apply list_lookup_alter_ne. intros <-.
              destruct (Heap.fresh_inj _ _ _ Hfresh s p s' p' l); [|done|congruence].
              unfold Heap.cell_ref. by rewrite Hs.
      * split.
        -- intros s' p' l' H'. rewrite length_alter.
           by apply (Heap.fresh_bound _ _ _ Hfresh s' p').
        -- apply (Heap.fresh_inj _ _ _ Hfresh).
    + intros l0 Hl0. apply list_lookup_alter_ne. lia.
  - assert (Hget : get (slot_data ps) s p = None).
    { by rewrite <- Hview, view_get, Hl. }
    rewrite (incr_None _ _ _ _ Hget).
    unfold Heap.cell_ref in Hl.
    destruct (Heap.slot_data hs !! s) as [row|]; simpl in *; [|done].
    by rewrite Hl.
Qed.

Lemma sim_loop h0 (lines : list string) :
  forall hs ps,
    sim h0 hs ps ->
    match Heap.loop hs lines, loop ps lines with
    | Ok hs', Ok ps' =>
        sim h0 hs' ps'
        /\ Heap.slot_data hs' = Heap.slot_data hs
        /\ forall l, l < length h0 ->
             Heap.store hs' !! l = Heap.store hs !! l
    | Raise e, Raise e' => e = e'
    | _, _ => False
    end.
Proof.
  induction lines as [|raw lines IH]; intros hs ps Hsim;
    cbn [Heap.loop loop].
  - done.
  - pose proof (sim_loop_body h0 hs ps raw Hsim) as Hstep.
    destruct (Heap.loop_body hs raw) as [hs1|e], (loop_body ps raw) as [ps1|e'];
      simpl; try done.
    destruct Hstep as (Hsim1 & Ht1 & Hframe1).
    specialize (IH hs1 ps1 Hsim1).
    destruct (Heap.loop hs1 lines) as [hs2|e], (loop ps1 lines) as [ps2|e'];
      try done.
    destruct IH as (Hsim2 & Ht2 & Hframe2).
    split; [done|]. split; [congruence|].
    intros l Hl. by rewrite Hframe2, Hframe1.
Qed.

(** A call in any store returns what the pure parser returns; its table
    is made of cells the store did not have before the call, and the cells
    the store had are left as they were. *)
Lemma heap_parse_refines h (content : option (list string)) :
  match Heap.parse_epon_data h content with
  | Ok (h', t) =>
      parse_epon_data content = Ok (Heap.view h' t)
      /\ Heap.fresh_cells h h' t
      /\ forall l, l < length h -> h' !! l = h !! l
  | Raise e => parse_epon_data content = Raise e
  end.
Proof.
  unfold Heap.parse_epon_data, parse_epon_data.
  destruct content as [[|raw lines]|]; [done| |done].
  pose proof (alloc_table_view h) as Hview.
  destruct (alloc_table_spec h) as ([n Hh] & _ & _ & Hfresh).
  destruct (Heap.alloc_table h) as [h1 t1]. cbn [fst snd] in *.
  assert (Hsim : sim h (Heap.HState h1 t1 None None) init_state) by done.
  pose proof (sim_loop h (raw :: lines) _ _ Hsim) as Hrun.
  destruct (Heap.loop _ (raw :: lines)) as [hs|e],
           (loop init_state (raw :: lines)) as [ps|e']; simpl; try done.
  - destruct Hrun as ((Hv & _ & _ & Hf) & Ht & Hframe). simpl in *.
    split; [by rewrite Hv|]. split; [done|].
    intros l Hl. rewrite Hframe by done. rewrite Hh. by apply lookup_app_l.
  - by rewrite Hrun.
Qed.

End Simulation.

(** C9: two calls on the same lines, the second in the store the first
    left, return tables that hold the same counts, the first table being
    untouched by the second call; they are the counts of the parser as a
    function of the lines alone.  A call that raises does so in every
    store. *)
Theorem C9_two_calls_identical_tables
    (h0 : list counts) (content : option (list string)) :
  match Heap.parse_epon_data h0 content with
  | Ok (h1, t1) =>
      exists h2 t2,
        Heap.parse_epon_data h1 content = Ok (h2, t2)
        /\ Heap.view h2 t2 = Heap.view h2 t1
        /\ Heap.view h2 t1 = Heap.view h1 t1
        /\ parse_epon_data content = Ok (Heap.view h1 t1)
  | Raise e =>
      forall h1, Heap.parse_epon_data h1 content = Raise e
  end.
Proof.
  pose proof (heap_parse_refines h0 content) as H1.
  destruct (Heap.parse_epon_data h0 content) as [[h1 t1]|e] eqn:E1.
  - destruct H1 as (Hpure & Hfresh1 & _).
    pose proof (heap_parse_refines h1 content) as H2.
    destruct (Heap.parse_epon_data h1 content) as [[h2 t2]|e] eqn:E2.
    + destruct H2 as (Hpure2 & _ & Hframe).
      exists h2, t2. split; [done|].
      assert (Hkeep : Heap.view h2 t1 = Heap.view h1 t1).
      { apply table_eq.
        - intros s. by rewrite !view_rows.
        - intros s p. rewrite !view_get.
          destruct (Heap.cell_ref t1 s p) as [l|] eqn:Hl; [|done]. simpl.
          apply Hframe. by apply (Heap.fresh_bound _ _ _ Hfresh1 s p). }
      split; [|done]. rewrite Hkeep. congruence.
    + congruence.
  - intros h1. pose proof (heap_parse_refines h1 content) as H2.
    destruct (Heap.parse_epon_data h1 content) as [[h2 t2]|e']; [|congruence].
    destruct H2 as [H2 _]. congruence.
Qed.

(** * Further properties of the parser *)

Section Outcome.

Lemma lookup_fun_map {B} (f : Z -> B) (lo n k : Z) :
  (list_to_map ((fun a => (a, f a)) <$> seqZ lo n) : gmap Z B) !! k
  = if bool_decide (lo <= k < lo + n) then Some (f k) else None.
Proof.
  case_bool_decide as Hk.
  - apply elem_of_list_to_map_1.
    + rewrite fst_fmap_pair. apply NoDup_seqZ.
    + apply list_elem_of_fmap. exists k. split; [done|].
      apply elem_of_seqZ. lia.
  - apply not_elem_of_list_to_map_1.
    rewrite fst_fmap_pair, elem_of_seqZ. lia.
Qed.

Lemma tally_table_rows (es : list effect) (s : Z) :
  is_Some (tally_table es !! s) <-> 2 <= s <= 7.
Proof.
  unfold tally_table. rewrite lookup_fun_map.
  case_bool_decide; split; intros H'; try done; try lia; by destruct H'.
Qed.

Lemma tally_table_get (es : list effect) (s p : Z) :
  get (tally_table es) s p = cell_of es s p.
Proof.
  unfold get, tally_table, cell_of. rewrite lookup_fun_map.
  case_bool_decide as Hs; simpl.
  - unfold tally_row. rewrite lookup_fun_map.
    repeat case_bool_decide; done || lia.
  - case_bool_decide; [lia | done].
Qed.

Lemma loop_body_rows (st st' : pstate) (raw : string) :
  loop_body st raw = Ok st' ->
  forall s, is_Some (slot_data st' !! s) <-> is_Some (slot_data st !! s).
Proof.
  unfold loop_body.
  destruct (line_effect (current_slot st) (current_pon st) raw) as [n|n|s p k|x|];
    simpl; try (intros [= <-]; done); try done.
  destruct (get (slot_data st) s p) as [c|] eqn:Hc.
  - destruct (incr_Ok _ s p k c Hc) as (t' & -> & _ & _ & Hrows).
    simpl. intros [= <-]. exact Hrows.
  - unfold get in Hc. unfold incr.
    destruct (slot_data st !! s) as [row|]; simpl in *; [|done].
    by rewrite Hc.
Qed.

Lemma loop_rows (lines : list string) :
  forall st st',
    loop st lines = Ok st' ->
    forall s, is_Some (slot_data st' !! s) <-> is_Some (slot_data st !! s).
Proof.
  induction lines as [|raw lines IH]; intros st st'; cbn [loop].
  - by intros [= <-].
  - destruct (loop_body st raw) as [st1|e] eqn:E1; simpl; [|done].
    intros Hrest s. rewrite (IH _ _ Hrest). apply (loop_body_rows st st1 raw E1).
Qed.

Lemma failure_None (e : effect) : failure e = None <-> passes e.
Proof.
  destruct e as [n|n|s p k|x|]; simpl; try done.
  case_bool_decide; split; try done.
Qed.

Lemma first_failure_None (es : list effect) :
  first_failure es = None <-> Forall passes es.
Proof.
  induction es as [|e es IH]; simpl.
  - split; [constructor | done].
  - rewrite Forall_cons, <- IH, <- failure_None.
    destruct (failure e); intuition congruence.
Qed.

(** The first iteration that raises ends the run, with its exception. *)
Lemma loop_first_failure (lines : list string) :
  forall (st : pstate) (es : list effect) (x : exc),
    (forall s p, get (slot_data st) s p = cell_of es s p) ->
    first_failure (effects (current_slot st) (current_pon st) lines) = Some x ->
    loop st lines = Raise x.
Proof.
  induction lines as [|raw lines IH]; intros st es x Hinv Hbad;
    cbn [loop effects first_failure] in *; [done|].
  destruct (failure (line_effect (current_slot st) (current_pon st) raw))
    as [y|] eqn:Hf.
  - assert (y = x) as -> by congruence. unfold loop_body.
    destruct (line_effect (current_slot st) (current_pon st) raw) as [n|n|s p k|z|];
      simpl in Hf; try done.
    + case_bool_decide as Hin; [done|]. assert (x = KeyError) as -> by congruence.
      simpl. rewrite incr_None; [done|].
      rewrite Hinv. unfold cell_of. by rewrite bool_decide_eq_false_2.
    + by assert (z = x) as -> by congruence.
  - apply failure_None in Hf.
    destruct (loop_body_tally st raw es Hinv Hf) as (st' & -> & Hcs & Hcp & Hinv').
    simpl. apply (IH st' _ x Hinv'). by rewrite Hcs, Hcp.
Qed.

End Outcome.

Lemma parse_outcome (content : option (list string)) :
  parse_epon_data content =
    match content with
    | None | Some [] => Raise ValueError
    | Some lines =>
        match first_failure (effects None None lines) with
        | None => Ok (tally_table (effects None None lines))
        | Some x => Raise x
        end
    end.
Proof.
  destruct content as [[|raw lines]|]; [done| |done].
  set (doc := raw :: lines). unfold parse_epon_data. fold doc.
  destruct (first_failure (effects None None doc)) as [x|] eqn:Hfail.
  - by rewrite (loop_first_failure doc init_state [] x cell_of_fresh Hfail).
  - apply first_failure_None in Hfail as Hall.
    destruct (loop_tally doc init_state [] cell_of_fresh Hall) as (st & Hloop & Hfin).
    rewrite Hloop. simpl. f_equal. apply table_eq.
    + intros s. rewrite (loop_rows _ _ _ Hloop), tally_table_rows. simpl.
      rewrite new_slot_data_lookup.
      case_bool_decide; split; intros H'; try done; by destruct H'.
    + intros s p. rewrite tally_table_get. apply Hfin.
Qed.

(** The whole function in closed form: [ValueError] for a file that could
    not be decoded or has no line; otherwise the exception of the first
    iteration that raises, which is [ValueError] when a slot marker or a
    PON header gives [int] more digits than it converts and [KeyError]
    when an increment addresses a pair outside the grid; and when no
    iteration raises, the table of the tallies of the run. *)
Theorem parse_epon_data_outcome (content : option (list string)) :
  parse_epon_data content =
    match content with
    | None | Some [] => Raise ValueError
    | Some lines =>
        match first_failure (effects None None lines) with
        | None => Ok (tally_table (effects None None lines))
        | Some x => Raise x
        end
    end.
Proof. apply parse_outcome. Qed.

(** ** Lines that do nothing *)

(** A document without any slot-marker line parses to the fresh table:
    every count is 0, whatever the lines hold. *)
Theorem no_marker_fresh_table (lines : list string) :
  lines <> [] ->
  Forall (fun raw => contains "dis onu slot" (strip raw) = false) lines ->
  parse_epon_data (Some lines) = Ok new_slot_data.
Proof.
  intros Hne Hall. unfold parse_epon_data.
  destruct lines as [|raw lines]; [done|].
  by rewrite (inert_lines init_state (raw :: lines) Hall).
Qed.

Lemma no_marker_fresh_table_witness :
  parse_epon_data
    (Some ["-- Olt3/0/5 --"; "aaaa-bbbb-cccc Onu3/5/1 Up 101"]%string)
  = Ok new_slot_data.
Proof.
  apply no_marker_fresh_table; [discriminate|].
  apply Forall_cons_2; [vm_compute; reflexivity|].
  apply Forall_cons_2; [vm_compute; reflexivity|].
  apply Forall_nil_2.
Defined.

(** A blank line, a line that starts with a dash and a line that shows one
    of the words State, MAC, LOID, LLID, Port never change a count, in any
    parse state, and never raise [KeyError]: the iteration returns with the
    table as it was, unless the line is a slot marker or a PON header whose
    number has more digits than [int] converts, which raises [ValueError].
    Such a line that is neither a slot marker nor a PON header leaves the
    whole state as it was. *)
Theorem quiet_line_keeps_table (st : pstate) (raw : string) :
  quiet_line raw = true ->
  match loop_body st raw with
  | Ok st' => slot_data st' = slot_data st
  | Raise e =>
      e = ValueError
      /\ exists g,
           (re_search match_slot (strip raw) = Some g
            \/ re_search match_olt (strip raw) = Some g)
           /\ 4300 < Z.of_nat (String.length g)
  end
  /\ (contains "dis onu slot" (strip raw) = false ->
      contains "Olt" (strip raw) && contains "/0/" (strip raw) = false ->
      loop_body st raw = Ok st).
Proof.
  unfold quiet_line. intros Hq.
  assert (Hrest :
    (if truthy (current_slot st) && truthy (current_pon st)
        && negb (String.eqb (strip raw) "") && negb (startswith "-" (strip raw))
     then
       if existsb (fun k => contains k (strip raw)) header_words then Skip
       else
         let parts := re_split_ws (strip raw) in
         if (2 <=? length parts)%nat then
           let state := nth (length parts - 2) parts ""%string in
           match state_key state, current_slot st, current_pon st with
           | Some k, Some s, Some p => Count s p k
           | _, _, _ => Skip
           end
         else Skip
     else Skip) = Skip).
  { destruct (String.eqb (strip raw) ""); simpl in *.
    { by rewrite andb_false_r. }
    destruct (startswith "-" (strip raw)); simpl in *.
    { by rewrite andb_false_r. }
    rewrite Hq. by case_match. }
  unfold loop_body, line_effect. cbv zeta in *.
  destruct (contains "dis onu slot" (strip raw)) eqn:Hmark.
  { split; [|done].
    destruct (re_search match_slot (strip raw)) as [g|] eqn:Hg; [|done].
    unfold assign_int. destruct (int g) as [n|e] eqn:E; simpl; [done|].
    apply int_raises in E as [-> Hlen]. eauto. }
  destruct (truthy (current_slot st) && slot_in_range (current_slot st)
            && contains "Olt" (strip raw) && contains "/0/" (strip raw)) eqn:Hhead.
  { split.
    - destruct (re_search match_olt (strip raw)) as [g|] eqn:Hg; [|done].
      unfold assign_int. destruct (int g) as [n|e] eqn:E; simpl; [done|].
      apply int_raises in E as [-> Hlen]. eauto.
    - intros _ Hno. rewrite <- andb_assoc, Hno, andb_false_r in Hhead. done. }
  rewrite Hrest. done.
Qed.

Lemma quiet_line_keeps_table_witness :
  match loop_body (PState new_slot_data (Some 3) (Some 5))
                  "aaaa-bbbb-cccc Port3/5/1 Up 101" with
  | Ok st' => slot_data st' = new_slot_data
  | Raise e =>
      e = ValueError
      /\ exists g,
           (re_search match_slot (strip "aaaa-bbbb-cccc Port3/5/1 Up 101") = Some g
            \/ re_search match_olt (strip "aaaa-bbbb-cccc Port3/5/1 Up 101") = Some g)
           /\ 4300 < Z.of_nat (String.length g)
  end
  /\ (contains "dis onu slot" (strip "aaaa-bbbb-cccc Port3/5/1 Up 101") = false ->
      contains "Olt" (strip "aaaa-bbbb-cccc Port3/5/1 Up 101")
      && contains "/0/" (strip "aaaa-bbbb-cccc Port3/5/1 Up 101") = false ->
      loop_body (PState new_slot_data (Some 3) (Some 5))
                "aaaa-bbbb-cccc Port3/5/1 Up 101"
      = Ok (PState new_slot_data (Some 3) (Some 5))).
Proof.
  apply (quiet_line_keeps_table (PState new_slot_data (Some 3) (Some 5))
           "aaaa-bbbb-cccc Port3/5/1 Up 101").
  vm_compute. reflexivity.
Defined.

(** ** White space around a line *)

Section Padding.

Lemma append_nil_l (s : string) : (EmptyString +:+ s)%string = s.
Proof. reflexivity. Qed.

Lemma append_cons_l (c : ascii) (s t : string) :
  (String c s +:+ t)%string = String c (s +:+ t).
Proof. reflexivity. Qed.

Lemma lstrip_all_space (s : string) : all_space s = true -> lstrip s = EmptyString.
Proof.
  induction s as [|c s IH]; simpl; [done|].
  intros [Hc Hs]%andb_true_iff. rewrite Hc. auto.
Qed.

Lemma lstrip_app_space (pre s : string) :
  all_space pre = true -> lstrip (pre +:+ s) = lstrip s.
Proof.
  induction pre as [|c pre IH]; [done|].
  intros H. simpl in H. apply andb_true_iff in H as [Hc Hs].
  rewrite append_cons_l. simpl. rewrite Hc. auto.
Qed.

Lemma rstrip_all_space (s : string) : all_space s = true -> rstrip s = EmptyString.
Proof.
  induction s as [|c s IH]; simpl; [done|].
  intros [Hc Hs]%andb_true_iff. by rewrite (IH Hs), Hc.
Qed.

Lemma rstrip_app_space (s post : string) :
  all_space post = true -> rstrip (s +:+ post) = rstrip s.
Proof.
  intros Hpost. induction s as [|c s IH].
  - rewrite append_nil_l. by apply rstrip_all_space.
  - rewrite append_cons_l. simpl. by rewrite IH.
Qed.

Lemma lstrip_app_r (s post : string) :
  all_space post = true ->
  rstrip (lstrip (s +:+ post)) = rstrip (lstrip s).
Proof.
  intros Hpost. induction s as [|c s IH].
  - rewrite append_nil_l. by rewrite (lstrip_all_space _ Hpost).
  - rewrite append_cons_l. simpl. destruct (is_space c); [done|].
    rewrite <- append_cons_l. by apply rstrip_app_space.
Qed.

Lemma strip_padded (l l' : string) : padded l l' -> strip l' = strip l.
Proof.
  intros (pre & post & Hpre & Hpost & ->). unfold strip.
  rewrite lstrip_app_space by done. by apply lstrip_app_r.
Qed.

Lemma loop_padded (lines lines' : list string) :
  Forall2 padded lines lines' ->
  forall st, loop st lines' = loop st lines.
Proof.
  induction 1 as [|l l' lines lines' Hpad _ IH]; intros st; cbn [loop]; [done|].
  assert (Hbody : loop_body st l' = loop_body st l).
  { unfold loop_body, line_effect. by rewrite (strip_padded _ _ Hpad). }
  rewrite Hbody. destruct (loop_body st l); simpl; [apply IH | done].
Qed.

Lemma rstrip_app_tight (s t : string) :
  rstrip t = t -> t <> EmptyString -> rstrip (s +:+ t) = (s +:+ t)%string.
Proof.
  intros Ht Hne. induction s as [|c s IH]; [done|].
  rewrite append_cons_l. simpl. rewrite IH.
  destruct (s +:+ t)%string eqn:E; [|done].
  destruct s; [by rewrite append_nil_l in E | by rewrite append_cons_l in E].
Qed.

Lemma append_not_empty_r (s t : string) :
  t <> EmptyString -> (s +:+ t)%string <> EmptyString.
Proof.
  intros Ht. destruct s; [by rewrite append_nil_l | by rewrite append_cons_l].
Qed.

End Padding.

(** White space before and after the lines of a file (indentation, the
    line ends left by [readlines], trailing blanks) does not change what
    [parse_epon_data] returns. *)
Theorem parse_ignores_padding (lines lines' : list string) :
  Forall2 padded lines lines' ->
  parse_epon_data (Some lines') = parse_epon_data (Some lines).
Proof.
  intros Hpad. unfold parse_epon_data.
  destruct Hpad as [|l l' lines lines' Hl Hrest]; [done|].
  by rewrite (loop_padded (l :: lines) (l' :: lines')) by by constructor.
Qed.

Lemma parse_ignores_padding_witness :
  parse_epon_data (Some doc_padded) = parse_epon_data (Some doc_dis).
Proof.
  apply parse_ignores_padding. unfold doc_dis, doc_padded.
  constructor; [|constructor; [|constructor; [|constructor; [|constructor]]]].
  - exists "  "%string, " "%string. split; [|split]; reflexivity.
  - exists " "%string, ""%string. split; [|split]; reflexivity.
  - exists ""%string, "  "%string. split; [|split]; reflexivity.
  - exists "  "%string, ""%string. split; [|split]; reflexivity.
Defined.

(** ** Data lines *)

Section TokenLines.

Lemma append_nil_r (s : string) : (s +:+ EmptyString)%string = s.
Proof.
  induction s as [|c s IH]; [done|]. rewrite append_cons_l. by rewrite IH.
Qed.

Lemma token_head (s : string) :
  token s -> exists c r, s = String c r /\ is_space c = false.
Proof.
  intros [Hne Hs]. destruct s as [|c r]; [done|].
  simpl in Hs. apply andb_true_iff in Hs as [Hc _].
  apply negb_true_iff in Hc. eauto.
Qed.

Lemma rstrip_no_space (s : string) : no_space s = true -> rstrip s = s.
Proof.
  induction s as [|c s IH]; simpl; [done|].
  intros [Hc Hs]%andb_true_iff. rewrite (IH Hs).
  apply negb_true_iff in Hc. rewrite Hc. by destruct s.
Qed.

(** [re.split] returns at least one piece. *)
Lemma re_split_ws_cons (s : string) : exists p ps, re_split_ws s = p :: ps.
Proof.
  induction s as [|c s IH]; cbn [re_split_ws]; [eauto|].
  destruct (is_space c).
  - destruct s as [|c' s']; [eauto|]. destruct (is_space c'); [exact IH | eauto].
  - destruct IH as (p & ps & ->). eauto.
Qed.

(** A token at the head of a string is the head of its first piece. *)
Lemma split_token (tok r : string) :
  no_space tok = true ->
  re_split_ws (tok +:+ r)
  = match re_split_ws r with
    | p :: ps => (tok +:+ p)%string :: ps
    | [] => [tok]
    end.
Proof.
  intros Htok. induction tok as [|c tok IH].
  - rewrite append_nil_l. by destruct (re_split_ws_cons r) as (p & ps & ->).
  - simpl in Htok. apply andb_true_iff in Htok as [Hc Htok].
    apply negb_true_iff in Hc.
    rewrite append_cons_l. cbn [re_split_ws]. rewrite Hc, (IH Htok).
    by destruct (re_split_ws_cons r) as (p & ps & ->).
Qed.

(** A separator before a token ends a piece. *)
Lemma split_separator (sep r : string) (c : ascii) (r' : string) :
  separator sep -> r = String c r' -> is_space c = false ->
  re_split_ws (sep +:+ r) = EmptyString :: re_split_ws r.
Proof.
  intros [Hne Hsp] -> Hc. induction sep as [|a sep IH]; [done|].
  simpl in Hsp. apply andb_true_iff in Hsp as [Ha Hsp].
  rewrite append_cons_l.
  change (re_split_ws (String a (sep +:+ String c r')))
    with (if is_space a then
            match (sep +:+ String c r')%string with
            | String c' _ =>
                if is_space c' then re_split_ws (sep +:+ String c r')
                else EmptyString :: re_split_ws (sep +:+ String c r')
            | EmptyString => EmptyString :: re_split_ws (sep +:+ String c r')
            end
          else
            match re_split_ws (sep +:+ String c r') with
            | p :: ps => String a p :: ps
            | [] => [String a EmptyString]
            end).
  rewrite Ha. destruct sep as [|b sep].
  - rewrite !append_nil_l. by rewrite Hc.
  - simpl in Hsp. apply andb_true_iff in Hsp as [Hb Hsp'].
    rewrite !append_cons_l. rewrite Hb. rewrite <- append_cons_l.
    apply IH; [done|]. simpl. by rewrite Hb.
Qed.

Lemma split_last (s : string) : no_space s = true -> re_split_ws s = [s].
Proof.
  induction s as [|c s IH]; [done|].
  simpl. intros [Hc Hs]%andb_true_iff.
  apply negb_true_iff in Hc. by rewrite Hc, (IH Hs).
Qed.

Lemma join_not_empty (front : list (string * string)) (rest : string) :
  rest <> EmptyString -> join front rest <> EmptyString.
Proof.
  intros Hrest. induction front as [|ts front IH]; [done|].
  cbn [join]. by do 2 apply append_not_empty_r.
Qed.

Lemma join_head (front : list (string * string)) (rest : string) :
  Forall (fun ts => token ts.1 /\ separator ts.2) front ->
  (exists c r, rest = String c r /\ is_space c = false) ->
  exists c r, join front rest = String c r /\ is_space c = false.
Proof.
  destruct front as [|[tok sep] front]; [done|]. intros Hall _.
  apply Forall_cons in Hall as [[Htok _] _]. cbn [fst] in Htok.
  destruct (token_head _ Htok) as (c & r & -> & Hc).
  cbn [join fst snd]. rewrite append_cons_l. eauto.
Qed.

Lemma rstrip_join (front : list (string * string)) (rest : string) :
  rstrip rest = rest -> rest <> EmptyString ->
  rstrip (join front rest) = join front rest.
Proof.
  intros Hr Hne. induction front as [|ts front IH]; [done|].
  cbn [join]. pose proof (join_not_empty front rest Hne) as Hj.
  apply rstrip_app_tight; [|by apply append_not_empty_r].
  by apply rstrip_app_tight.
Qed.

(** The pieces of a line are its tokens. *)
Lemma split_join (front : list (string * string)) (rest : string) :
  Forall (fun ts => token ts.1 /\ separator ts.2) front ->
  (exists c r, rest = String c r /\ is_space c = false) ->
  re_split_ws (join front rest) = (fst <$> front) ++ re_split_ws rest.
Proof.
  induction 1 as [|[tok sep] front [Htok Hsep] Hall IH]; intros Hrest; [done|].
  rewrite fmap_cons. cbn [join fst snd].
  destruct (join_head front rest Hall Hrest) as (c & r & Hj & Hc).
  rewrite (split_token tok) by apply Htok.
  rewrite (split_separator sep _ c r Hsep Hj Hc).
  by rewrite append_nil_r, IH.
Qed.

Section Line.

Context (lead : string) (front : list (string * string))
        (state sep last trail : string).
Hypothesis Hlead : all_space lead = true.
Hypothesis Htrail : all_space trail = true.
Hypothesis Hfront : Forall (fun ts => token ts.1 /\ separator ts.2) front.
Hypothesis Hstate : token state.
Hypothesis Hsep : separator sep.
Hypothesis Hlast : token last.

Local Abbreviation line := (join front (state +:+ sep +:+ last)) (only parsing).

Lemma tail_head :
  exists c r, (state +:+ sep +:+ last)%string = String c r /\ is_space c = false.
Proof.
  destruct (token_head _ Hstate) as (c & r & -> & Hc).
  rewrite append_cons_l. eauto.
Qed.

Lemma split_token_line : re_split_ws line = (fst <$> front) ++ [state; last].
Proof.
  rewrite (split_join _ _ Hfront tail_head). f_equal.
  destruct (token_head _ Hlast) as (c & r & Hl & Hc).
  rewrite (split_token state) by apply Hstate.
  rewrite (split_separator sep _ c r Hsep Hl Hc).
  by rewrite append_nil_r, (split_last last) by apply Hlast.
Qed.

Lemma token_line_not_empty : line <> EmptyString.
Proof.
  apply join_not_empty. do 2 apply append_not_empty_r. apply Hlast.
Qed.

Lemma strip_token_line :
  strip (token_line lead front state sep last trail) = line.
Proof.
  unfold token_line. rewrite (strip_padded line) by (exists lead, trail; done).
  unfold strip.
  destruct (join_head _ _ Hfront tail_head) as (c & r & Hj & Hc).
  assert (Hl : lstrip line = line) by (rewrite Hj; simpl; by rewrite Hc).
  rewrite Hl. apply rstrip_join.
  - do 2 (apply rstrip_app_tight; [|try apply append_not_empty_r; apply Hlast]).
    apply rstrip_no_space, Hlast.
  - do 2 apply append_not_empty_r. apply Hlast.
Qed.

(** What the loop body does on a line of tokens while a slot and a port
    are current. *)
Lemma token_line_effect (cs cp : option Z) (s p : Z) :
  cs = Some s -> cp = Some p -> s <> 0 -> p <> 0 ->
  contains "dis onu slot" line = false ->
  (2 <= s <= 7 -> contains "Olt" line && contains "/0/" line = false) ->
  startswith "-" line = false ->
  Forall (fun w => contains w line = false) header_words ->
  line_effect cs cp (token_line lead front state sep last trail)
  = match state_key state with
    | Some k => Count s p k
    | None => Skip
    end.
Proof.
  intros -> -> Hs Hp Hmark Hhead Hdash Hwords.
  unfold line_effect. cbv zeta. rewrite strip_token_line, Hmark.
  assert (Hh : truthy (Some s) && slot_in_range (Some s)
               && contains "Olt" line && contains "/0/" line = false).
  { destruct (slot_in_range (Some s)) eqn:Hr; [|by rewrite andb_false_r].
    rewrite <- andb_assoc, Hhead; [apply andb_false_r|].
    simpl in Hr. apply andb_true_iff in Hr as [H1 H2].
    apply Z.leb_le in H1, H2. lia. }
  rewrite Hh.
  assert (Hw : existsb (fun k => contains k line) header_words = false).
  { apply not_true_is_false. rewrite existsb_exists. intros (w & Hin & Hw).
    apply list_elem_of_In in Hin. rewrite Forall_forall in Hwords.
    specialize (Hwords w Hin). cbv beta in Hwords. congruence. }
  rewrite Hw, Hdash. unfold truthy.
  apply Z.eqb_neq in Hs, Hp. rewrite Hs, Hp.
  pose proof token_line_not_empty as Hne. apply String.eqb_neq in Hne.
  rewrite Hne. cbn [negb andb].
  rewrite split_token_line, length_app, length_fmap. cbn [length].
  replace (2 <=? length front + 2)%nat with true
    by (symmetry; apply Nat.leb_le; lia).
  replace (length front + 2 - 2)%nat with (length (fst <$> front))
    by (rewrite length_fmap; lia).
  rewrite nth_middle. by destruct (state_key state).
Qed.

End Line.

End TokenLines.

(** C6: a data line is a line of at least two tokens separated by white
    space, with any white space around it, that is no slot marker and no
    PON header, does not start with a dash and shows none of the header
    words.  On such a line met while [current_slot] and [current_pon] are
    true and address a cell holding [c], the second-to-last token alone
    decides: "Up" makes the cell hold one more online, "Offline" one more
    offline, "Silent" one more silent, the two other counts of the cell,
    every other cell, [current_slot] and [current_pon] being as before;
    any other token leaves the whole state as it was. *)
Theorem C6_state_token_decides
    (st : pstate) (s p : Z) (c : counts)
    (lead : string) (front : list (string * string))
    (state sep last trail : string) :
  let line := join front (state +:+ sep +:+ last) in
  let raw := token_line lead front state sep last trail in
  current_slot st = Some s -> current_pon st = Some p ->
  s <> 0 -> p <> 0 ->
  get (slot_data st) s p = Some c ->
  all_space lead = true -> all_space trail = true ->
  Forall (fun ts => token ts.1 /\ separator ts.2) front ->
  token state -> separator sep -> token last ->
  contains "dis onu slot" line = false ->
  (2 <= s <= 7 -> contains "Olt" line && contains "/0/" line = false) ->
  startswith "-" line = false ->
  Forall (fun w => contains w line = false)
         ["State"; "MAC"; "LOID"; "LLID"; "Port"]%string ->
  (state = "Up"%string ->
   counted st raw s p (Counts (online c + 1) (offline c) (silent c)))
  /\ (state = "Offline"%string ->
      counted st raw s p (Counts (online c) (offline c + 1) (silent c)))
  /\ (state = "Silent"%string ->
      counted st raw s p (Counts (online c) (offline c) (silent c + 1)))
  /\ (state <> "Up"%string -> state <> "Offline"%string ->
      state <> "Silent"%string -> loop_body st raw = Ok st).
Proof.
  intros line raw Hcs Hcp Hs Hp Hcell Hlead Htrail Hfront Hstate Hsep Hlast
         Hmark Hhead Hdash Hwords.
  pose proof (token_line_effect lead front state sep last trail
                Hlead Htrail Hfront Hstate Hsep Hlast _ _ s p
                Hcs Hcp Hs Hp Hmark Hhead Hdash Hwords) as Heff.
  fold raw in Heff. rewrite state_key_spec in Heff.
  assert (Hcount : forall k,
             line_effect (current_slot st) (current_pon st) raw = Count s p k ->
             counted st raw s p (bump k c)).
  { intros k Hk. unfold counted, loop_body. rewrite Hk. simpl.
    destruct (incr_Ok _ s p k c Hcell) as (t' & -> & Hget & Hother & _).
    exists t'. simpl. done. }
  split_and!.
  - intros Htok. apply (Hcount Online). rewrite Heff, Htok. done.
  - intros Htok. apply (Hcount Offline). rewrite Heff, Htok. done.
  - intros Htok. apply (Hcount Silent). rewrite Heff, Htok. done.
  - intros H1 H2 H3. unfold loop_body. rewrite Heff.
    repeat case_decide; done.
Qed.

Lemma C6_witness :
  counted (PState new_slot_data (Some 3) (Some 5))
          "  aaaa-bbbb-cccc  Onu3/5/1 Up 101 " 3 5 (Counts 1 0 0).
Proof.
  refine (proj1 (C6_state_token_decides
                   (PState new_slot_data (Some 3) (Some 5)) 3 5 zero_counts
                   "  " [("aaaa-bbbb-cccc", "  "); ("Onu3/5/1", " ")]%string
                   "Up" " " "101" " "
                   _ _ _ _ _ _ _ _ _ _ _ _ _ _ _) _);
    try reflexivity; try lia; try (split; [discriminate | reflexivity]).
  - constructor; [split; (split; [discriminate | reflexivity])|].
    constructor; [split; (split; [discriminate | reflexivity])|].
    constructor.
  - repeat constructor.
Defined.

(** ** A port kept across slot markers *)

(** A slot marker does not reset the port: right after a marker line for
    slot [n], a data line that shows the state of the key [k] adds one to
    the count [k] of the pair ([n], [p]), where [p] is the port that was
    current before the marker, whichever slot it was read under; the two
    other counts of that pair and every other pair are as before. *)
Theorem port_carried_over_slot_marker
    (st : pstate) (marker g : string) (n p : Z) (k : key) (c : counts)
    (lead : string) (front : list (string * string))
    (sep last trail : string) :
  let line := join front (key_token k +:+ sep +:+ last) in
  let data := token_line lead front (key_token k) sep last trail in
  re_search match_slot (strip marker) = Some g ->
  int g = Ok n ->
  current_pon st = Some p ->
  n <> 0 -> p <> 0 ->
  get (slot_data st) n p = Some c ->
  all_space lead = true -> all_space trail = true ->
  Forall (fun ts => token ts.1 /\ separator ts.2) front ->
  separator sep -> token last ->
  contains "dis onu slot" line = false ->
  (2 <= n <= 7 -> contains "Olt" line && contains "/0/" line = false) ->
  startswith "-" line = false ->
  Forall (fun w => contains w line = false)
         ["State"; "MAC"; "LOID"; "LLID"; "Port"]%string ->
  exists t' c',
    loop st [marker; data] = Ok (PState t' (Some n) (Some p))
    /\ get t' n p = Some c'
    /\ field k c' = field k c + 1
    /\ (forall k', k' <> k -> field k' c' = field k' c)
    /\ forall s' p', (s', p') <> (n, p) -> get t' s' p' = get (slot_data st) s' p'.
Proof.
  intros line data Hm Hint Hp Hn Hp0 Hcell Hlead Htrail Hfront Hsep Hlast
         Hmark Hhead Hdash Hwords.
  assert (Hstate : token (key_token k)) by (by destruct k).
  assert (Hstep : loop_body st marker
                  = Ok (PState (slot_data st) (Some n) (current_pon st))).
  { unfold loop_body. by rewrite (marker_line_effect _ _ _ _ _ Hm Hint). }
  subst data. cbn [loop]. rewrite Hstep.
  cbn [mbind result_bind]. unfold loop_body.
  cbn [current_slot current_pon slot_data].
  rewrite (token_line_effect lead front (key_token k) sep last trail
             Hlead Htrail Hfront Hstate Hsep Hlast (Some n) (current_pon st) n p
             eq_refl Hp Hn Hp0 Hmark Hhead Hdash Hwords).
  assert (Hkey : state_key (key_token k) = Some k) by (by destruct k).
  rewrite Hkey. cbn [apply_effect slot_data current_slot current_pon].
  destruct (incr_Ok _ n p k c Hcell) as (t' & -> & Hget & Hother & _).
  exists t', (bump k c). cbn [mbind result_bind]. rewrite Hp.
  split_and!; [done | done | by destruct k | | done].
  intros k' Hne. by destruct k, k'.
Qed.

Lemma port_carried_over_slot_marker_witness :
  exists t' c',
    loop (PState new_slot_data (Some 3) (Some 5))
         ["dis onu slot 4"; "aaaa-bbbb-cccc Onu4/1/1 Up 101"]%string
    = Ok (PState t' (Some 4) (Some 5))
    /\ get t' 4 5 = Some c'
    /\ field Online c' = field Online zero_counts + 1
    /\ (forall k', k' <> Online -> field k' c' = field k' zero_counts)
    /\ forall s' p', (s', p') <> (4, 5) -> get t' s' p' = get new_slot_data s' p'.
Proof.
  apply (port_carried_over_slot_marker
           (PState new_slot_data (Some 3) (Some 5))
           "dis onu slot 4" "4" 4 5 Online zero_counts
           "" [("aaaa-bbbb-cccc", " "); ("Onu4/1/1", " ")]%string
           " " "101" "");
    try reflexivity; try lia; try (split; [discriminate | reflexivity]).
  - constructor; [split; (split; [discriminate | reflexivity])|].
    constructor; [split; (split; [discriminate | reflexivity])|].
    constructor.
  - repeat constructor.
Defined.

(** ** Counts and counting lines *)

Section Sums.

Lemma get_count_get (t : table) (s p : Z) (k : key) :
  get_count (slot_info_of t s) p k = from_option (field k) 0 (get t s p).
Proof.
  unfold get_count, slot_info_of, get.
  destruct (t !! s) as [row|]; simpl; [done|]. by rewrite lookup_empty.
Qed.

Lemma hits_cons (s p : Z) (k : key) (e : effect) (es : list effect) :
  hits s p k (e :: es)
  = (if decide (e = Count s p k) then 1 else 0) + hits s p k es.
Proof.
  unfold hits. rewrite filter_cons. case_decide; simpl length; lia.
Qed.

Lemma hits_present (s p : Z) (k : key) (es : list effect) :
  Count s p k ∈ es -> 0 < hits s p k es.
Proof.
  intros Hin. unfold hits.
  assert (Hf : Count s p k ∈ filter (fun e => e = Count s p k) es)
    by (by apply list_elem_of_filter).
  destruct (filter _ es); [by apply elem_of_nil in Hf | simpl; lia].
Qed.

Lemma effects_length (lines : list string) :
  forall cs cp, length (effects cs cp lines) = length lines.
Proof.
  induction lines as [|raw lines IH]; intros cs cp; simpl; [done|].
  by rewrite IH.
Qed.

(** The three counts of a pair after the run [es]. *)
Lemma cell_sum_tally (es : list effect) (sp : Z * Z) :
  sp ∈ grid ->
  cell_sum (tally_table es) sp
  = hits sp.1 sp.2 Online es + hits sp.1 sp.2 Offline es + hits sp.1 sp.2 Silent es.
Proof.
  destruct sp as [s p]. rewrite elem_of_grid. intros Hin.
  unfold cell_sum. rewrite !get_count_get, tally_table_get. unfold cell_of.
  by rewrite bool_decide_eq_true_2.
Qed.

Lemma sum_indicator (a : Z * Z) (l : list (Z * Z)) :
  NoDup l ->
  foldr (fun sp acc => (if decide (sp = a) then 1 else 0) + acc) 0 l
  = if decide (a ∈ l) then 1 else 0.
Proof.
  induction 1 as [|x l Hx Hl IH]; cbn [foldr].
  - case_decide as H; [by apply elem_of_nil in H | done].
  - rewrite IH.
    destruct (decide (x = a)) as [->|Hne], (decide (a ∈ l)) as [Hin|Hnin];
      case_decide as Hc; rewrite elem_of_cons in Hc; try lia; try done;
      exfalso; intuition congruence.
Qed.

Lemma sum_zero (l : list (Z * Z)) :
  foldr (fun _ acc => 0 + acc) 0 l = 0.
Proof. induction l; simpl; lia. Qed.

Lemma sum_split (f g : Z * Z -> Z) (l : list (Z * Z)) :
  foldr (fun sp acc => (f sp + g sp) + acc) 0 l
  = foldr (fun sp acc => f sp + acc) 0 l + foldr (fun sp acc => g sp + acc) 0 l.
Proof. induction l; simpl; lia. Qed.

Lemma sum_ext (f g : Z * Z -> Z) (l : list (Z * Z)) :
  (forall sp, sp ∈ l -> f sp = g sp) ->
  foldr (fun sp acc => f sp + acc) 0 l = foldr (fun sp acc => g sp + acc) 0 l.
Proof.
  induction l as [|x l IH]; intros Hfg; simpl; [done|].
  rewrite (Hfg x) by apply list_elem_of_here.
  rewrite IH; [done|]. intros sp Hsp. apply Hfg. by apply list_elem_of_further.
Qed.

Lemma effect_adds_sum (e : effect) :
  passes e ->
  foldr (fun sp acc => effect_adds e sp + acc) 0 grid
  = if is_count e then 1 else 0.
Proof.
  destruct e as [n|n|s p k|x|]; intros Hin; unfold effect_adds, is_count;
    try apply sum_zero.
  rewrite sum_indicator by apply grid_144.
  by rewrite decide_True by (by apply elem_of_grid).
Qed.

Lemma cell_sum_cons (e : effect) (es : list effect) (sp : Z * Z) :
  sp ∈ grid ->
  cell_sum (tally_table (e :: es)) sp
  = effect_adds e sp + cell_sum (tally_table es) sp.
Proof.
  intros Hsp. rewrite !cell_sum_tally by done. rewrite !hits_cons.
  destruct sp as [s p]. unfold effect_adds. cbn [fst snd].
  destruct e as [n|n|s0 p0 k0|x|];
    repeat case_decide; simplify_eq; try lia; by destruct k0.
Qed.

Lemma tally_sum (es : list effect) :
  Forall passes es ->
  table_sum (tally_table es)
  = Z.of_nat (length (filter (fun e => is_count e = true) es)).
Proof.
  unfold table_sum. induction 1 as [|e es He Hes IH].
  - rewrite (sum_ext _ (fun _ => 0)); [apply sum_zero|].
    intros sp Hsp. by rewrite cell_sum_tally.
  - rewrite (sum_ext _ (fun sp => effect_adds e sp + cell_sum (tally_table es) sp))
      by (intros sp Hsp; by apply cell_sum_cons).
    rewrite sum_split, IH, effect_adds_sum, filter_cons by done.
    destruct (is_count e); case_decide; try done; cbn [length]; lia.
Qed.

End Sums.

(** The outcome theorem, read on a call that returned. *)
Lemma parse_Ok_tally (lines : list string) (t : table) :
  parse_epon_data (Some lines) = Ok t ->
  Forall passes (effects None None lines)
  /\ t = tally_table (effects None None lines).
Proof.
  rewrite parse_outcome. destruct lines as [|raw lines]; [done|].
  destruct (first_failure _) eqn:Hfail; [done|].
  apply first_failure_None in Hfail. by intros [= <-].
Qed.

(** The counts of a returned table add up to the number of lines that
    were counted: every counted line adds exactly one to one count, so the
    sum never exceeds the number of lines of the file. *)
Theorem counts_sum_to_counted_lines (lines : list string) (t : table) :
  parse_epon_data (Some lines) = Ok t ->
  table_sum t
  = Z.of_nat (length (filter (fun e => is_count e = true)
                             (effects None None lines)))
  /\ 0 <= table_sum t <= Z.of_nat (length lines).
Proof.
  intros Hparse. destruct (parse_Ok_tally _ _ Hparse) as [Hall ->].
  rewrite tally_sum by done. split; [done|]. split; [lia|].
  apply Nat2Z.inj_le.
  rewrite <- (effects_length lines None None). apply length_filter.
Qed.

Lemma counts_sum_to_counted_lines_witness :
  table_sum (the_table doc_dis) = 2
  /\ 0 <= table_sum (the_table doc_dis) <= 4.
Proof.
  apply (counts_sum_to_counted_lines doc_dis (the_table doc_dis)).
  vm_compute. reflexivity.
Defined.

(** A slot of a returned table has data (and gets its block in the
    report) exactly when some line of the file was counted under it. *)
Theorem has_data_iff_counted (lines : list string) (t : table) (s : Z) :
  parse_epon_data (Some lines) = Ok t ->
  (hasAnyData t s = true
   <-> exists p k, Count s p k ∈ effects None None lines).
Proof.
  intros Hparse. destruct (parse_Ok_tally _ _ Hparse) as [Hall ->].
  set (es := effects None None lines) in *.
  assert (Hcnt : forall p k,
             get_count (slot_info_of (tally_table es) s) p k
             = if bool_decide (2 <= s <= 7 /\ 1 <= p <= 24)
               then hits s p k es else 0).
  { intros p k. rewrite get_count_get, tally_table_get. unfold cell_of.
    case_bool_decide; [by destruct k | done]. }
  unfold hasAnyData, has_data. rewrite existsb_exists. split.
  - intros (p & _ & Hpos). exists p.
    rewrite !Hcnt in Hpos. case_bool_decide as Hin; [|done].
    assert (Hk : exists k, 0 < hits s p k es).
    { apply orb_true_iff in Hpos as [Hpos|Hpos];
        [apply orb_true_iff in Hpos as [Hpos|Hpos]|];
        apply Z.ltb_lt in Hpos; eauto. }
    destruct Hk as [k Hk]. exists k.
    destruct (decide (Count s p k ∈ es)) as [|Hnin]; [done|].
    rewrite (hits_absent _ _ _ _ Hnin) in Hk. lia.
  - intros (p & k & Hin). exists p.
    pose proof (proj1 (Forall_forall _ _) Hall _ Hin) as Hg. simpl in Hg.
    split; [apply list_elem_of_In, elem_of_seqZ; lia|].
    rewrite !Hcnt, bool_decide_eq_true_2 by done.
    pose proof (hits_present _ _ _ _ Hin) as Hpos. apply Z.ltb_lt in Hpos.
    destruct k; rewrite Hpos; by rewrite ?orb_true_r.
Qed.

Lemma has_data_iff_counted_witness :
  hasAnyData (the_table doc_dis) 3 = true
  <-> exists p k, Count 3 p k ∈ effects None None doc_dis.
Proof.
  apply (has_data_iff_counted doc_dis (the_table doc_dis) 3).
  vm_compute. reflexivity.
Defined.

(** * The worksheet *)

Section Worksheet.

(** The idle total as the loops of the function compute it. *)
Local Abbreviation total_of_loops := total_idle_count (only parsing).

Import Report.

Implicit Types (st : wstate) (si : gmap Z counts) (k : Z * Z).

Lemma enumerate_cons (idx0 p : Z) (g : list Z) :
  enumerate idx0 (p :: g) = (idx0, p) :: enumerate (idx0 + 1) g.
Proof.
  unfold enumerate. cbn [length].
  rewrite seqZ_cons by lia. cbn [zip zip_with]. do 3 f_equal; lia.
Qed.

Lemma write_port_fold si lbl (g : list Z) :
  forall (idx0 : Z) st,
    let st' := foldl (write_port si lbl) st (enumerate idx0 g) in
    current_row st' = current_row st
    /\ merged st' = merged st
    /\ Report.total_idle_count st'
       = Report.total_idle_count st
         + (match lbl with L_idle => idle_in si g | _ => 0 end)
    /\ (forall (j : nat) p, g !! j = Some p ->
          cells st' !! (current_row st, idx0 + Z.of_nat j)
          = Some (port_value si lbl p))
    /\ (forall k,
          ~ (k.1 = current_row st /\ idx0 <= k.2 < idx0 + Z.of_nat (length g)) ->
          cells st' !! k = cells st !! k).
Proof.
  induction g as [|p g IH]; intros idx0 st.
  - cbn. split_and!; try done. destruct lbl; unfold idle_in; simpl; lia.
  - rewrite enumerate_cons. cbn [foldl].
    set (st1 := write_port si lbl st (idx0, p)).
    assert (Hrow1 : current_row st1 = current_row st).
    { unfold st1, write_port; destruct lbl; simpl; try done. by case_match. }
    assert (Hmer1 : merged st1 = merged st).
    { unfold st1, write_port; destruct lbl; simpl; try done. by case_match. }
    assert (Hcells1 : cells st1
                      = <[(current_row st, idx0) := port_value si lbl p]> (cells st)).
    { unfold st1, write_port; destruct lbl; simpl; try done. by case_match. }
    assert (Htot1 : Report.total_idle_count st1
                    = Report.total_idle_count st
                      + (match lbl with
                         | L_idle => if is_idle si p then 1 else 0
                         | _ => 0
                         end)).
    { unfold st1, write_port; destruct lbl; simpl; try lia.
      case_match; simpl; lia. }
    destruct (IH (idx0 + 1) st1) as (Hrow & Hmer & Htot & Hhit & Hframe).
    cbv zeta. split_and!.
    + congruence.
    + congruence.
    + rewrite Htot, Htot1. destruct lbl; try lia.
      unfold idle_in. rewrite filter_cons.
      destruct (is_idle si p); case_decide; try done; cbn [length]; lia.
    + intros [|j] q Hq.
      * injection Hq as ->. rewrite Hframe.
        -- rewrite Hcells1, Z.add_0_r. apply lookup_insert_eq.
        -- rewrite Hrow1. simpl. lia.
      * rewrite <- (Hhit j q Hq), Hrow1. do 2 f_equal. lia.
    + intros k Hk. rewrite Hframe.
      * rewrite Hcells1. apply lookup_insert_ne.
        intros <-. apply Hk. cbn [length fst snd]. lia.
      * rewrite Hrow1. intros [? ?]. apply Hk. cbn [length]. lia.
Qed.

Lemma write_row_spec si (g : list Z) st lbl :
  let st' := write_row si g st lbl in
  current_row st' = current_row st + 1
  /\ merged st' = merged st
  /\ Report.total_idle_count st'
     = Report.total_idle_count st
       + (match lbl with L_idle => idle_in si g | _ => 0 end)
  /\ cells st' !! (current_row st, 2) = Some (V_label lbl)
  /\ (forall (j : nat) p, g !! j = Some p ->
        cells st' !! (current_row st, 3 + Z.of_nat j)
        = Some (port_value si lbl p))
  /\ (forall k,
        ~ (k.1 = current_row st /\ 2 <= k.2 < 3 + Z.of_nat (length g)) ->
        cells st' !! k = cells st !! k).
Proof.
  unfold write_row.
  set (st1 := set_cell (current_row st, 2) (V_label lbl) st).
  destruct (write_port_fold si lbl g 3 st1) as (Hrow & Hmer & Htot & Hhit & Hframe).
  cbv zeta. cbn [add_rows current_row merged Report.total_idle_count cells].
  split_and!.
  - rewrite Hrow. done.
  - rewrite Hmer. done.
  - rewrite Htot. done.
  - rewrite Hframe; [apply lookup_insert_eq|]. simpl. lia.
  - intros j p Hp. apply (Hhit j p Hp).
  - intros k Hk. rewrite Hframe.
    + apply lookup_insert_ne. intros <-. apply Hk. simpl. lia.
    + simpl. intros [? ?]. apply Hk. lia.
Qed.

(** A run of labelled rows below one another. *)
Lemma write_rows_spec si (g : list Z) (ls : list label) :
  forall st,
    let st' := foldl (write_row si g) st ls in
    current_row st' = current_row st + Z.of_nat (length ls)
    /\ merged st' = merged st
    /\ Report.total_idle_count st'
       = Report.total_idle_count st
         + Z.of_nat (length (filter (fun l => l = L_idle) ls)) * idle_in si g
    /\ (forall (li : nat) lbl, ls !! li = Some lbl ->
          cells st' !! (current_row st + Z.of_nat li, 2) = Some (V_label lbl)
          /\ forall (j : nat) p, g !! j = Some p ->
               cells st' !! (current_row st + Z.of_nat li, 3 + Z.of_nat j)
               = Some (port_value si lbl p))
    /\ (forall k,
          ~ (current_row st <= k.1 < current_row st + Z.of_nat (length ls)
             /\ 2 <= k.2 < 3 + Z.of_nat (length g)) ->
          cells st' !! k = cells st !! k).
Proof.
  induction ls as [|l ls IH]; intros st.
  - cbn. split_and!; try done; lia.
  - cbn [foldl].
    destruct (write_row_spec si g st l) as (Hrow1 & Hmer1 & Htot1 & Hlab1 & Hhit1 & Hfr1).
    destruct (IH (write_row si g st l)) as (Hrow & Hmer & Htot & Hhit & Hframe).
    cbv zeta. split_and!.
    + rewrite Hrow, Hrow1. cbn [length]. lia.
    + congruence.
    + rewrite Htot, Htot1, filter_cons.
      destruct l; case_decide; try done; cbn [length]; lia.
    + intros [|li] lbl Hl.
      * injection Hl as ->. rewrite Z.add_0_r. split.
        -- rewrite Hframe; [done|]. rewrite Hrow1. simpl. lia.
        -- intros j p Hp. rewrite Hframe; [by apply Hhit1|].
           rewrite Hrow1. simpl. lia.
      * destruct (Hhit li lbl Hl) as [Hlab Hports]. rewrite Hrow1 in Hlab, Hports.
        replace (current_row st + Z.of_nat (S li))
          with (current_row st + 1 + Z.of_nat li) by lia.
        split; [done|]. exact Hports.
    + intros k Hk. rewrite Hframe.
      * apply Hfr1. intros [? ?]. apply Hk. cbn [length]. lia.
      * rewrite Hrow1. intros [? ?]. apply Hk. cbn [length]. lia.
Qed.

Lemma write_group_spec si st (g : list Z) :
  let st' := write_group si st g in
  current_row st' = current_row st + 5
  /\ merged st' = merged st
  /\ Report.total_idle_count st' = Report.total_idle_count st + idle_in si g
  /\ (forall (li : nat) lbl, rows !! li = Some lbl ->
        cells st' !! (current_row st + Z.of_nat li, 2) = Some (V_label lbl)
        /\ forall (j : nat) p, g !! j = Some p ->
             cells st' !! (current_row st + Z.of_nat li, 3 + Z.of_nat j)
             = Some (port_value si lbl p))
  /\ (forall k,
        ~ (current_row st <= k.1 < current_row st + 5
           /\ 2 <= k.2 < 3 + Z.of_nat (length g)) ->
        cells st' !! k = cells st !! k).
Proof.
  unfold write_group.
  destruct (write_rows_spec si g rows st) as (Hrow & Hmer & Htot & Hhit & Hframe).
  cbv zeta. split_and!; try done.
  - rewrite Htot. change (length (filter (fun l => l = L_idle) rows)) with 1%nat. lia.
Qed.

Lemma port_position (p : Z) :
  1 <= p <= 24 ->
  exists g (j : nat),
    groups !! Z.to_nat ((p + 1) mod 2) = Some g
    /\ g !! j = Some p
    /\ Z.of_nat j = (p - 1) / 2.
Proof.
  intros Hp.
  pose (chk := fun p : Z =>
          match groups !! Z.to_nat ((p + 1) mod 2) with
          | Some g => bool_decide (g !! Z.to_nat ((p - 1) / 2) = Some p)
          | None => false
          end).
  assert (Hall : forallb chk (seqZ 1 24) = true) by (vm_compute; reflexivity).
  rewrite forallb_forall in Hall.
  assert (Hchk : chk p = true).
  { apply Hall, list_elem_of_In, elem_of_seqZ. lia. }
  unfold chk in Hchk.
  destruct (groups !! Z.to_nat ((p + 1) mod 2)) as [g|]; [|done].
  apply bool_decide_eq_true in Hchk.
  exists g, (Z.to_nat ((p - 1) / 2)). split_and!; try done.
  apply Z2Nat.id. apply Z.div_pos; lia.
Qed.

Lemma idle_in_groups si :
  idle_in si (py_range 1 24 2) + idle_in si (py_range 2 25 2)
  = idle_in si (seqZ 1 24).
Proof.
  unfold idle_in. rewrite <- groups_cover, filter_app, length_app. lia.
Qed.

Lemma write_slot_skip (t : table) st (s : Z) :
  hasAnyData t s = false -> write_slot t st s = st.
Proof. unfold hasAnyData, write_slot. by intros ->. Qed.

Lemma write_slot_spec (t : table) st (s : Z) :
  hasAnyData t s = true ->
  let st' := write_slot t st s in
  current_row st' = current_row st + 10
  /\ merged st' = (current_row st, 1, current_row st + 9, 1) :: merged st
  /\ Report.total_idle_count st'
     = Report.total_idle_count st + idle_in (slot_info_of t s) (seqZ 1 24)
  /\ block_at t s (current_row st) st'
  /\ (forall k,
        ~ (current_row st <= k.1 < current_row st + 10 /\ 1 <= k.2 < 15) ->
        cells st' !! k = cells st !! k).
Proof.
  intros Hdata. unfold hasAnyData in Hdata. unfold write_slot. rewrite Hdata.
  assert (Hfacts : exists g1 g2,
             groups = [g1; g2]
             /\ Z.of_nat (length g1) = 12 /\ Z.of_nat (length g2) = 12
             /\ forall si, idle_in si g1 + idle_in si g2 = idle_in si (seqZ 1 24)).
  { exists (py_range 1 24 2), (py_range 2 25 2).
    split_and!; try reflexivity. apply idle_in_groups. }
  destruct Hfacts as (g1 & g2 & Hgroups & Hl1 & Hl2 & Hidle).
  rewrite Hgroups. cbn [foldl].
  set (si := slot_info_of t s).
  destruct (write_group_spec si st g1) as (Hrow1 & Hmer1 & Htot1 & Hhit1 & Hfr1).
  generalize dependent (write_group si st g1). intros st1 Hrow1 Hmer1 Htot1 Hhit1 Hfr1.
  destruct (write_group_spec si st1 g2) as (Hrow2 & Hmer2 & Htot2 & Hhit2 & Hfr2).
  generalize dependent (write_group si st1 g2). intros st2 Hrow2 Hmer2 Htot2 Hhit2 Hfr2.
  cbv zeta.
  cbn [set_cell merge_cells current_row merged Report.total_idle_count cells].
  split_and!.
  - lia.
  - rewrite Hmer2, Hmer1. do 3 f_equal. lia.
  - rewrite Htot2, Htot1, <- (Hidle si). lia.
  - unfold block_at.
    cbn [set_cell merge_cells current_row merged Report.total_idle_count cells].
    split_and!.
    + apply lookup_insert_eq.
    + replace (current_row st2 - 1) with (current_row st + 9) by lia.
      apply list_elem_of_here.
    + intros li lbl Hl.
      assert (Hli : (li < 5)%nat).
      { apply lookup_lt_Some in Hl. exact Hl. }
      destruct (Hhit1 li lbl Hl) as [Hlab1 Hports1].
      destruct (Hhit2 li lbl Hl) as [Hlab2 Hports2].
      split_and!.
      * rewrite lookup_insert_ne by (intros [=]).
        rewrite Hfr2; [done|]. cbn [fst snd]. lia.
      * rewrite lookup_insert_ne by (intros [=]).
        rewrite Hrow1 in Hlab2. exact Hlab2.
      * intros p Hp.
        destruct (port_position p Hp) as (g & j & Hg & Hj & Hjz).
        unfold port_cell. rewrite <- Hjz.
        rewrite lookup_insert_ne by (intros [=]; lia).
        assert (Hpar : (p + 1) mod 2 = 0 \/ (p + 1) mod 2 = 1)
          by (pose proof (Z.mod_pos_bound (p + 1) 2); lia).
        destruct Hpar as [Hpar|Hpar]; rewrite Hpar in Hg |- *.
        -- rewrite Hgroups in Hg. injection Hg as <-. rewrite Hfr2.
           ++ rewrite Z.mul_0_r, Z.add_0_r. by apply Hports1.
           ++ cbn [fst snd]. lia.
        -- rewrite Hgroups in Hg. injection Hg as <-.
           rewrite Z.mul_1_r, <- Hrow1. by apply Hports2.
  - intros k Hk. rewrite lookup_insert_ne.
    + rewrite Hfr2, Hfr1; [done| |]; intros [? ?]; apply Hk; lia.
    + intros <-. apply Hk. cbn [fst snd]. lia.
Qed.

Lemma block_at_frame (t : table) (s r0 : Z) st st' :
  block_at t s r0 st ->
  (forall k, r0 <= k.1 < r0 + 10 -> cells st' !! k = cells st !! k) ->
  (forall x, x ∈ merged st -> x ∈ merged st') ->
  block_at t s r0 st'.
Proof.
  intros (Hname & Hmer & Hrows) Hcells Hmerged. unfold block_at. split_and!.
  - rewrite Hcells; [done|]. cbn [fst snd]. lia.
  - by apply Hmerged.
  - intros li lbl Hl.
    assert (Hli : (li < 5)%nat) by (apply lookup_lt_Some in Hl; exact Hl).
    destruct (Hrows li lbl Hl) as (H1 & H2 & H3). split_and!.
    + rewrite Hcells; [done|]. cbn [fst snd]. lia.
    + rewrite Hcells; [done|]. cbn [fst snd]. lia.
    + intros p Hp. rewrite Hcells; [by apply H3|]. unfold port_cell. cbn [fst snd].
      pose proof (Z.mod_pos_bound (p + 1) 2). lia.
Qed.

(** The loop over the slots, from any state. *)
Lemma write_slots_spec (t : table) (slots : list Z) :
  forall st,
    let st' := foldl (write_slot t) st slots in
    let shown := filter (fun s => hasAnyData t s = true) slots in
    current_row st' = current_row st + 10 * Z.of_nat (length shown)
    /\ (forall x, x ∈ merged st -> x ∈ merged st')
    /\ (forall k,
          ~ (current_row st <= k.1 < current_row st' /\ 1 <= k.2 < 15) ->
          cells st' !! k = cells st !! k)
    /\ (forall (i : nat) s, shown !! i = Some s ->
          block_at t s (current_row st + 10 * Z.of_nat i) st').
Proof.
  induction slots as [|s0 slots IH]; intros st.
  - cbn. split_and!; try done. lia.
  - cbn [foldl]. rewrite filter_cons.
    destruct (hasAnyData t s0) eqn:Hd.
    + rewrite decide_True by done.
      destruct (write_slot_spec t st s0 Hd) as (Hrow1 & Hmer1 & _ & Hblock1 & Hfr1).
      destruct (IH (write_slot t st s0)) as (Hrow & Hmer & Hframe & Hblocks).
      cbv zeta. split_and!.
      * rewrite Hrow, Hrow1. cbn [length]. lia.
      * intros x Hx. apply Hmer. rewrite Hmer1. by apply list_elem_of_further.
      * intros k Hk. rewrite Hframe.
        -- apply Hfr1. intros [? ?]. apply Hk. rewrite Hrow, Hrow1. lia.
        -- intros [? ?]. apply Hk. rewrite Hrow1 in *. lia.
      * intros [|i] s Hs.
        -- injection Hs as ->. rewrite Z.mul_0_r, Z.add_0_r.
           apply (block_at_frame t s (current_row st) _ _ Hblock1); [|done].
           intros k Hk. apply Hframe. rewrite Hrow1. lia.
        -- replace (current_row st + 10 * Z.of_nat (S i))
             with (current_row (write_slot t st s0) + 10 * Z.of_nat i) by lia.
           by apply Hblocks.
    + rewrite decide_False by done.
      rewrite (write_slot_skip t st s0 Hd). apply IH.
Qed.

Lemma write_slots_total (t : table) (slots : list Z) :
  forall st,
    Report.total_idle_count (foldl (write_slot t) st slots)
    = Report.total_idle_count st
      + Z.of_nat (length (filter (fun sp : Z * Z =>
                                    hasAnyData t sp.1 = true
                                    /\ isIdle t sp.1 sp.2 = true)
                                 (s ← slots; p ← seqZ 1 24; [(s, p)]))).
Proof.
  induction slots as [|s0 slots IH]; intros st.
  - cbn. lia.
  - cbn [foldl]. rewrite IH, bind_cons, filter_app, length_app, slot_pairs_count.
    destruct (hasAnyData t s0) eqn:Hd.
    + destruct (write_slot_spec t st s0 Hd) as (_ & _ & -> & _).
      unfold idle_in, isIdle. lia.
    + rewrite (write_slot_skip t st s0 Hd). lia.
Qed.

Lemma write_notes_spec (ids : list nat) :
  forall st,
    let st' := foldl write_note st ids in
    current_row st' = current_row st + Z.of_nat (length ids)
    /\ merged st' = merged st
    /\ Report.total_idle_count st' = Report.total_idle_count st
    /\ (forall (j i : nat), ids !! j = Some i ->
          cells st' !! (current_row st + 1 + Z.of_nat j, 1) = Some (V_note i))
    /\ (forall k,
          ~ (current_row st < k.1 <= current_row st + Z.of_nat (length ids)
             /\ k.2 = 1) ->
          cells st' !! k = cells st !! k).
Proof.
  induction ids as [|i0 ids IH]; intros st.
  - cbn. split_and!; try done. lia.
  - cbn [foldl].
    set (st1 := write_note st i0).
    destruct (IH st1) as (Hrow & Hmer & Htot & Hhit & Hframe).
    assert (Hrow1 : current_row st1 = current_row st + 1) by done.
    assert (Hcells1 : cells st1 = <[(current_row st + 1, 1) := V_note i0]> (cells st))
      by done.
    cbv zeta. split_and!.
    + rewrite Hrow, Hrow1. cbn [length]. lia.
    + by rewrite Hmer.
    + by rewrite Htot.
    + intros [|j] i Hi.
      * injection Hi as ->. rewrite Hframe.
        -- rewrite Hcells1, Z.add_0_r. apply lookup_insert_eq.
        -- rewrite Hrow1. simpl. lia.
      * rewrite <- (Hhit j i Hi), Hrow1. do 2 f_equal. lia.
    + intros k Hk. rewrite Hframe.
      * rewrite Hcells1. apply lookup_insert_ne. intros <-. apply Hk.
        cbn [length fst snd]. lia.
      * rewrite Hrow1. intros [? ?]. apply Hk. cbn [length]. lia.
Qed.

Lemma write_blocks_spec (t : table) :
  let st := write_blocks t in
  let n := Z.of_nat (length (shown_slots t)) in
  current_row st = 2 + 10 * n
  /\ (1, 1, 1, 14) ∈ merged st
  /\ Report.total_idle_count st = total_of_loops t
  /\ cells st !! (1, 1) = Some V_title
  /\ (forall k, is_Some (cells st !! k) ->
        k = (1, 1) \/ (2 <= k.1 < 2 + 10 * n /\ 1 <= k.2 < 15))
  /\ (forall (i : nat) s, shown_slots t !! i = Some s ->
        block_at t s (2 + 10 * Z.of_nat i) st).
Proof.
  unfold write_blocks, shown_slots.
  set (st0 := set_cell (1, 1) V_title (merge_cells (1, 1, 1, 14) (WState ∅ [] 2 0))).
  destruct (write_slots_spec t (seqZ 2 6) st0) as (Hrow & Hmer & Hframe & Hblocks).
  pose proof (write_slots_total t (seqZ 2 6) st0) as Htot.
  assert (Hrow0 : current_row st0 = 2) by done.
  rewrite Hrow0 in *.
  cbv zeta. split_and!.
  - exact Hrow.
  - apply Hmer. apply list_elem_of_here.
  - rewrite Htot. unfold total_of_loops. rewrite slots_count. done.
  - rewrite Hframe; [apply lookup_insert_eq|]. cbn [fst snd]. lia.
  - intros k Hk.
    destruct (decide (2 <= k.1 < 2 + 10 * Z.of_nat
                (length (filter (fun s => hasAnyData t s = true) (seqZ 2 6)))
              /\ 1 <= k.2 < 15)) as [Hin|Hout]; [by right|].
    left. rewrite Hframe in Hk by (by rewrite Hrow).
    unfold st0 in Hk. cbn [set_cell cells merge_cells] in Hk.
    apply lookup_insert_is_Some in Hk as [Hk|[_ Hk]]; [done|].
    rewrite lookup_empty in Hk. by destruct Hk.
  - exact Hblocks.
Qed.

End Worksheet.

Lemma block_at_report (t : table) (i : nat) (s : Z) :
  Report.shown_slots t !! i = Some s ->
  Report.block_at t s (2 + 10 * Z.of_nat i) (Report.generate_excel_report t).
Proof.
  intros Hs.
  destruct (write_blocks_spec t) as (Hrow & _ & _ & _ & _ & Hblocks).
  pose proof (lookup_lt_Some _ _ _ Hs) as Hlt.
  unfold Report.generate_excel_report, Report.write_notes.
  set (st := Report.write_blocks t) in *.
  destruct (write_notes_spec (seq 0 6) (Report.write_stat st))
    as (_ & Hmer & _ & _ & Hframe).
  apply (block_at_frame t s _ st); [by apply Hblocks| |].
  - intros k Hk. rewrite Hframe.
    + unfold Report.write_stat. cbn [Report.set_cell Report.cells Report.merge_cells
                                      Report.add_rows Report.current_row].
      apply lookup_insert_ne. intros <-. cbn [fst] in Hk. lia.
    + unfold Report.write_stat. cbn [Report.set_cell Report.cells Report.merge_cells
                                      Report.add_rows Report.current_row]. lia.
  - intros x Hx. rewrite Hmer. unfold Report.write_stat.
    cbn [Report.set_cell Report.merged Report.merge_cells Report.add_rows].
    by apply list_elem_of_further.
Qed.

(** The values of a block, read cell by cell. *)
Lemma block_at_shown (t : table) (s r0 : Z) (st : Report.wstate) :
  Report.block_at t s r0 st -> Report.block_shown t s r0 st.
Proof.
  intros (Hname & Hmerge & Hrows).
  destruct (Hrows 0%nat L_pon eq_refl) as (Ha0 & Hb0 & Hp0).
  destruct (Hrows 1%nat L_online eq_refl) as (Ha1 & Hb1 & Hp1).
  destruct (Hrows 2%nat L_offline eq_refl) as (Ha2 & Hb2 & Hp2).
  destruct (Hrows 3%nat L_silent eq_refl) as (Ha3 & Hb3 & Hp3).
  destruct (Hrows 4%nat L_idle eq_refl) as (Ha4 & Hb4 & Hp4).
  clear Hrows. change (Z.of_nat 0) with 0 in *. change (Z.of_nat 1) with 1 in *.
  change (Z.of_nat 2) with 2 in *. change (Z.of_nat 3) with 3 in *.
  change (Z.of_nat 4) with 4 in *.
  split; [exact Hname|]. split; [exact Hmerge|]. split.
  - intros g [->| ->].
    + rewrite !Z.add_0_r in *. done.
    + rewrite Z.add_0_r in Hb0. done.
  - intros p Hp. cbv zeta.
    specialize (Hp0 p Hp). specialize (Hp1 p Hp). specialize (Hp2 p Hp).
    specialize (Hp3 p Hp). specialize (Hp4 p Hp).
    unfold Report.port_cell, Report.port_value, is_idle in *.
    rewrite !get_count_get in *. rewrite Z.add_0_r in Hp0.
    destruct (get t s p) as [c|]; done.
Qed.

(** The [i]-th slot that has data, in slot order, is laid out as a block
    of ten rows from row [2 + 10 * i]: its name in column 1, merged over
    the ten rows; the five labels in column 2, for the odd ports and again
    for the even ports; and for every port of 1..24, in the column and the
    group of the port, its number, its online, offline and silent counts
    and its idle mark, which is "是" exactly when the online count is 0.
    What is written after the block leaves these cells as they are. *)
Theorem report_block_layout (t : table) (i : nat) (s : Z) :
  Report.shown_slots t !! i = Some s ->
  Report.block_shown t s (2 + 10 * Z.of_nat i) (Report.generate_excel_report t).
Proof.
  intros Hs. by apply block_at_shown, block_at_report.
Qed.

Lemma report_block_layout_witness :
  Report.block_shown (the_table doc_dis) 3 2
    (Report.generate_excel_report (the_table doc_dis)).
Proof.
  apply (report_block_layout (the_table doc_dis) 0 3).
  vm_compute. reflexivity.
Defined.

(** Around the blocks: the title at (1,1) over the merged first row; one
    free row below the last block; then the statistics line, merged over
    the fourteen columns, which prints [total_idle_count]; then the six
    notes.  With [n] blocks the sheet ends at row 9 + 10 n. *)
Theorem report_frame_rows (t : table) :
  let ws := Report.generate_excel_report t in
  let n := Z.of_nat (length (Report.shown_slots t)) in
  Report.cells ws !! (1, 1) = Some Report.V_title
  /\ (1, 1, 1, 14) ∈ Report.merged ws
  /\ Report.cells ws !! (3 + 10 * n, 1) = Some (Report.V_stat (total_idle_count t))
  /\ (3 + 10 * n, 1, 3 + 10 * n, 14) ∈ Report.merged ws
  /\ (forall (j : nat), (j < 6)%nat ->
        Report.cells ws !! (4 + 10 * n + Z.of_nat j, 1) = Some (Report.V_note j))
  /\ Report.current_row ws = 9 + 10 * n
  /\ Report.total_idle_count ws = total_idle_count t.
Proof.
  destruct (write_blocks_spec t) as (Hrow & Hmer0 & Htot0 & Htitle & _ & _).
  unfold Report.generate_excel_report, Report.write_notes.
  set (st := Report.write_blocks t) in *.
  set (n := Z.of_nat (length (Report.shown_slots t))) in *.
  destruct (write_notes_spec (seq 0 6) (Report.write_stat st))
    as (Hrow2 & Hmer2 & Htot2 & Hhit2 & Hframe2).
  assert (Hrow1 : Report.current_row (Report.write_stat st) = 3 + 10 * n).
  { unfold Report.write_stat. cbn [Report.set_cell Report.merge_cells
                                    Report.add_rows Report.current_row]. lia. }
  assert (Hcells1 : Report.cells (Report.write_stat st)
                    = <[(3 + 10 * n, 1) := Report.V_stat (total_idle_count t)]>
                        (Report.cells st)).
  { unfold Report.write_stat. cbn [Report.set_cell Report.merge_cells
                                    Report.add_rows Report.current_row Report.cells
                                    Report.total_idle_count].
    rewrite Htot0. do 2 f_equal. lia. }
  assert (Hmer1 : Report.merged (Report.write_stat st)
                  = (3 + 10 * n, 1, 3 + 10 * n, 14) :: Report.merged st).
  { unfold Report.write_stat. cbn [Report.set_cell Report.merge_cells
                                    Report.add_rows Report.current_row Report.merged].
    repeat (f_equal; try lia). }
  rewrite Hrow1 in *. cbv zeta. split_and!.
  - rewrite Hframe2 by (cbn [fst snd]; lia).
    rewrite Hcells1, lookup_insert_ne by (intros [=]; lia). exact Htitle.
  - rewrite Hmer2, Hmer1. by apply list_elem_of_further.
  - rewrite Hframe2 by (cbn [fst snd]; lia).
    rewrite Hcells1. apply lookup_insert_eq.
  - rewrite Hmer2, Hmer1. apply list_elem_of_here.
  - intros j Hj.
    replace (4 + 10 * n + Z.of_nat j) with (3 + 10 * n + 1 + Z.of_nat j) by lia.
    apply Hhit2. by apply lookup_seq_lt.
  - rewrite Hrow2. cbn [length seq]. lia.
  - rewrite Htot2. unfold Report.write_stat.
    cbn [Report.set_cell Report.merge_cells Report.add_rows
         Report.total_idle_count]. exact Htot0.
Qed.

(** The function writes nowhere else: every cell that holds a value lies
    in rows 1 .. 9 + 10 n and columns 1 .. 14, and the row between the
    last block and the statistics line stays empty. *)
Theorem report_extent (t : table) (k : Z * Z) :
  let n := Z.of_nat (length (Report.shown_slots t)) in
  is_Some (Report.cells (Report.generate_excel_report t) !! k) ->
  1 <= k.1 <= 9 + 10 * n /\ 1 <= k.2 <= 14 /\ k.1 <> 2 + 10 * n.
Proof.
  cbv zeta.
  destruct (write_blocks_spec t) as (Hrow & _ & _ & _ & Hdom & _).
  unfold Report.generate_excel_report, Report.write_notes.
  set (st := Report.write_blocks t) in *.
  set (n := Z.of_nat (length (Report.shown_slots t))) in *.
  destruct (write_notes_spec (seq 0 6) (Report.write_stat st))
    as (_ & _ & _ & _ & Hframe2).
  assert (Hrow1 : Report.current_row (Report.write_stat st) = 3 + 10 * n).
  { unfold Report.write_stat. cbn [Report.set_cell Report.merge_cells
                                    Report.add_rows Report.current_row]. lia. }
  rewrite Hrow1 in Hframe2. change (Z.of_nat (length (seq 0 6))) with 6 in Hframe2.
  intros Hk.
  destruct (decide (3 + 10 * n < k.1 <= 3 + 10 * n + 6 /\ k.2 = 1)) as [Hn|Hn];
    [lia|].
  rewrite (Hframe2 k Hn) in Hk. unfold Report.write_stat in Hk.
  cbn [Report.set_cell Report.merge_cells Report.add_rows Report.current_row
       Report.cells] in Hk.
  apply lookup_insert_is_Some in Hk as [Hk|[_ Hk]].
  - subst k. cbn [fst snd]. lia.
  - destruct (Hdom k Hk) as [->|[? ?]]; cbn [fst snd]; lia.
Qed.

Lemma report_extent_witness :
  1 <= 6 <= 9 + 10 * Z.of_nat (length (Report.shown_slots (the_table doc_dis)))
  /\ 1 <= 5 <= 14
  /\ 6 <> 2 + 10 * Z.of_nat (length (Report.shown_slots (the_table doc_dis))).
Proof.
  apply (report_extent (the_table doc_dis) (6, 5)).
  vm_compute. eauto.
Defined.

(** * The idle total of version 1.4 *)

Section Version14.

Lemma slot_pairs_idle (t : table) (s : Z) (ports : list Z) :
  length (filter (fun sp : Z * Z => isIdle t sp.1 sp.2 = true)
                 (p ← ports; [(s, p)]))
  = length (filter (fun p => isIdle t s p = true) ports).
Proof.
  induction ports as [|p ports IH]; [done|].
  rewrite bind_cons, filter_app, length_app, IH, (filter_cons _ p).
  rewrite filter_cons, filter_nil. cbn [fst snd].
  repeat case_decide; simpl; try done; intuition congruence.
Qed.

Lemma slots_count_v14 (t : table) (slots : list Z) (acc : Z) :
  foldl (fun total slot_num =>
           let slot_info := slot_info_of t slot_num in
           foldl (fun total group =>
             foldl (fun total lbl =>
               foldl (fun total pon_id =>
                        match lbl with
                        | L_idle =>
                            if is_idle slot_info pon_id then total + 1
                            else total
                        | _ => total
                        end) total group) total rows) total groups)
        acc slots
  = acc + Z.of_nat (length (filter (fun sp : Z * Z => isIdle t sp.1 sp.2 = true)
                                   (s ← slots; p ← seqZ 1 24; [(s, p)]))).
Proof.
  revert acc. induction slots as [|s slots IH]; intros acc.
  - simpl. lia.
  - cbn [foldl]. rewrite IH, bind_cons, filter_app, length_app, slot_pairs_idle.
    cbv zeta. rewrite slot_block_count. unfold isIdle. lia.
Qed.

(** A slot without data in a table of non-negative counts is idle on all
    of its 24 ports. *)
Lemma no_data_all_idle (t : table) (s : Z) :
  (forall p, 0 <= get_count (slot_info_of t s) p Online) ->
  hasAnyData t s = false ->
  length (filter (fun p => isIdle t s p = true) (seqZ 1 24)) = 24%nat.
Proof.
  intros Hpos Hno.
  assert (Hall : forall p, p ∈ seqZ 1 24 -> isIdle t s p = true).
  { intros p Hp. unfold isIdle, is_idle. apply Z.eqb_eq.
    unfold hasAnyData, has_data in Hno.
    assert (Hp' : (0 <? get_count (slot_info_of t s) p Online) = false).
    { destruct (0 <? get_count (slot_info_of t s) p Online) eqn:E; [|done].
      rewrite <- Hno. symmetry. apply existsb_exists. exists p.
      split; [by apply list_elem_of_In|]. by rewrite E. }
    apply Z.ltb_ge in Hp'. specialize (Hpos p). lia. }
  assert (Hfil : filter (fun p => isIdle t s p = true) (seqZ 1 24) = seqZ 1 24).
  { generalize dependent (seqZ 1 24). intros l Hl.
    induction l as [|x l IH]; [done|].
    rewrite filter_cons, decide_True by apply Hl, list_elem_of_here.
    rewrite IH; [done|]. intros p Hp. by apply Hl, list_elem_of_further. }
  rewrite Hfil. reflexivity.
Qed.

Lemma slots_count_gap (t : table) (slots : list Z) :
  (forall s p, 0 <= get_count (slot_info_of t s) p Online) ->
  length (filter (fun sp : Z * Z => isIdle t sp.1 sp.2 = true)
                 (s ← slots; p ← seqZ 1 24; [(s, p)]))
  = (length (filter (fun sp : Z * Z => hasAnyData t sp.1 = true
                                       /\ isIdle t sp.1 sp.2 = true)
                    (s ← slots; p ← seqZ 1 24; [(s, p)]))
     + 24 * length (filter (fun s => hasAnyData t s = false) slots))%nat.
Proof.
  intros Hpos. induction slots as [|s slots IH]; [done|].
  rewrite !bind_cons, !filter_app, !length_app, IH.
  rewrite slot_pairs_idle, slot_pairs_count, filter_cons.
  destruct (hasAnyData t s) eqn:Hd.
  - rewrite decide_False by done. lia.
  - rewrite decide_True by done.
    rewrite (no_data_all_idle t s (Hpos s) Hd). cbn [length]. lia.
Qed.

End Version14.

(** In version 1.4 the report has a block for every slot, and its total
    is the number of pairs of the whole grid whose online count is 0. *)
Theorem total_idle_count_v14_whole_grid (t : table) :
  total_idle_count_v14 t = whole_grid_idle_count t.
Proof.
  unfold total_idle_count_v14, whole_grid_idle_count, grid.
  rewrite slots_count_v14. lia.
Qed.

(** On a table returned by the parser, the total of version 1.4 exceeds
    the total of the current version by 24 for every slot without data: the
    current report leaves those slots out, version 1.4 counted all their
    ports as idle. *)
Theorem total_idle_count_v14_gap (lines : list string) (t : table) :
  parse_epon_data (Some lines) = Ok t ->
  total_idle_count_v14 t
  = total_idle_count t
    + 24 * Z.of_nat (length (filter (fun s => hasAnyData t s = false) (seqZ 2 6))).
Proof.
  intros Hparse. destruct (parse_Ok_tally _ _ Hparse) as [_ ->].
  set (t := tally_table (effects None None lines)).
  assert (Hpos : forall s p, 0 <= get_count (slot_info_of t s) p Online).
  { intros s p. unfold t. rewrite get_count_get, tally_table_get. unfold cell_of.
    case_bool_decide; simpl; [apply hits_nonneg | done]. }
  unfold total_idle_count_v14, total_idle_count.
  rewrite slots_count_v14, slots_count, (slots_count_gap t _ Hpos). lia.
Qed.

Lemma total_idle_count_v14_gap_witness :
  total_idle_count_v14 (the_table doc_dis)
  = total_idle_count (the_table doc_dis)
    + 24 * Z.of_nat (length (filter (fun s => hasAnyData (the_table doc_dis) s = false)
                                    (seqZ 2 6))).
Proof.
  apply (total_idle_count_v14_gap doc_dis). vm_compute. reflexivity.
Defined.

(** * Cell objects *)

(** A call builds its table from cell objects of its own: the 144 pairs of
    the grid, and no other pair, refer to a cell; no two pairs share one
    (an increment on a pair is seen on that pair alone); each is allocated
    by the call; and the cells the store held before the call are as they
    were after it. *)
Theorem parse_cells_are_fresh_and_distinct
    (h : list counts) (content : option (list string)) :
  match Heap.parse_epon_data h content with
  | Ok (h', t) =>
      (forall s p, is_Some (Heap.cell_ref t s p) <-> (s, p) ∈ grid)
      /\ (forall s p s' p' l,
            Heap.cell_ref t s p = Some l -> Heap.cell_ref t s' p' = Some l ->
            s = s' /\ p = p')
      /\ (forall s p l,
            Heap.cell_ref t s p = Some l -> (length h <= l < length h')%nat)
      /\ (forall l, (l < length h)%nat -> h' !! l = h !! l)
  | Raise _ => True
  end.
Proof.
  pose proof (heap_parse_refines h content) as Href.
  unfold Heap.parse_epon_data in *.
  destruct content as [[|raw lines]|]; try done.
  destruct (alloc_table_spec h) as (_ & Hdom & Hrows & Hfresh0).
  pose proof (alloc_table_view h) as Hview.
  destruct (Heap.alloc_table h) as [h1 t1]. cbn [fst snd] in *.
  assert (Hsim : sim h (Heap.HState h1 t1 None None) init_state) by done.
  pose proof (sim_loop h (raw :: lines) _ _ Hsim) as Hrun.
  destruct (Heap.loop _ (raw :: lines)) as [hs|e],
           (loop init_state (raw :: lines)) as [ps|e']; try done.
  destruct Hrun as (_ & Ht & _). cbn [Heap.slot_data] in Ht.
  cbn [fmap result_fmap] in Href |- *.
  destruct Href as (_ & [Hbound Hinj] & Hframe).
  split_and!; try done.
  intros s p. rewrite Ht, elem_of_grid. unfold Heap.cell_ref. split.
  - intros [l Hl]. destruct (t1 !! s) as [row|] eqn:Hs; [|done]. simpl in Hl.
    assert (Hsin : s ∈ seqZ 2 6) by (apply Hdom; eauto).
    assert (Hpin : p ∈ seqZ 1 24) by (apply (Hrows _ _ Hs); eauto).
    apply elem_of_seqZ in Hsin, Hpin. lia.
  - intros [Hs Hp].
    assert (Hsome : is_Some (t1 !! s)) by (apply Hdom, elem_of_seqZ; lia).
    destruct Hsome as [row Hrow]. rewrite Hrow. simpl.
    apply (Hrows _ _ Hrow), elem_of_seqZ. lia.
Qed.


(** * The device list *)

Section DeviceList.

Import Devices.

Lemma lstrip_head (s : string) :
  lstrip s = EmptyString
  \/ exists c r, lstrip s = String c r /\ is_space c = false.
Proof.
  induction s as [|c s IH]; simpl; [by left|].
  destruct (is_space c) eqn:Hc; [exact IH|]. right. eauto.
Qed.

Lemma rstrip_head (c : ascii) (s : string) :
  is_space c = false -> exists r, rstrip (String c s) = String c r.
Proof.
  intros Hc. simpl. rewrite Hc. destruct (rstrip s); eauto.
Qed.

Lemma rstrip_idem (s : string) : rstrip (rstrip s) = rstrip s.
Proof.
  induction s as [|c s IH]; simpl; [done|].
  destruct (rstrip s) as [|c' r] eqn:Hr.
  - destruct (is_space c) eqn:Hc; simpl; [done|]. by rewrite Hc.
  - simpl in IH |- *. by rewrite IH.
Qed.

Lemma strip_idem (s : string) : strip (strip s) = strip s.
Proof.
  unfold strip. destruct (lstrip_head s) as [->|(c & r & -> & Hc)]; [done|].
  destruct (rstrip_head c r Hc) as [r' Hr']. rewrite Hr'.
  simpl lstrip. rewrite Hc. rewrite <- Hr'. apply rstrip_idem.
Qed.

(** The digits of a run. *)
Lemma digit_run_digits (s : string) :
  forallb is_digit (list_ascii_of_string (digit_run s).1) = true.
Proof.
  induction s as [|c s IH]; simpl; [done|].
  destruct (is_digit c) eqn:Hc; simpl; [|done]. by rewrite Hc, IH.
Qed.

Lemma take_chars_digits (n : nat) (s : string) :
  forallb is_digit (list_ascii_of_string s) = true ->
  forallb is_digit (list_ascii_of_string (take_chars n s)) = true.
Proof.
  revert s. induction n as [|n IH]; intros [|c s]; simpl; try done.
  intros [Hc Hs]%andb_true_iff. rewrite Hc. by apply IH.
Qed.

Lemma take_chars_length (n : nat) (s : string) :
  String.length (take_chars n s) = Nat.min n (String.length s).
Proof.
  revert s. induction n as [|n IH]; intros [|c s]; simpl; try done.
  by rewrite IH.
Qed.

Lemma octet_dot_octet (s a r : string) :
  octet_dot s = Some (a, r) -> octet a = true.
Proof.
  unfold octet_dot, octet. pose proof (digit_run_digits s) as Hd.
  destruct (digit_run s) as [d rest]. cbn [fst snd] in *.
  destruct ((1 <=? String.length d)%nat && (String.length d <=? 3)%nat) eqn:Hlen;
    [|done].
  destruct rest as [|c rest]; [done|].
  destruct (Ascii.eqb c "."); [|done]. intros [= <- _].
  rewrite Hd. exact Hlen.
Qed.

Lemma last_octet_octet (s d : string) :
  last_octet s = Some d -> octet d = true.
Proof.
  unfold last_octet, octet. pose proof (digit_run_digits s) as Hd.
  destruct (digit_run s) as [x rest]. cbn [fst snd] in *.
  destruct (1 <=? String.length x)%nat eqn:Hlen; [|done].
  intros H. assert (d = take_chars 3 x) as -> by congruence. clear H.
  rewrite take_chars_digits by done.
  rewrite take_chars_length. apply Nat.leb_le in Hlen.
  apply andb_true_iff. split; apply Nat.leb_le; lia.
Qed.

Lemma match_ip_shaped (s ip : string) : match_ip s = Some ip -> ip_shaped ip.
Proof.
  unfold match_ip.
  destruct (octet_dot s) as [[a r1]|] eqn:Ha; [|done]. simpl.
  destruct (octet_dot r1) as [[b r2]|] eqn:Hb; [|done]. simpl.
  destruct (octet_dot r2) as [[c r3]|] eqn:Hc; [|done]. simpl.
  destruct (last_octet r3) as [d|] eqn:Hd; [|done]. simpl.
  intros [= <-]. exists a, b, c, d.
  split_and!; try done;
    eauto using octet_dot_octet, last_octet_octet.
Qed.

Lemma search_ip_shaped (s pre ip : string) :
  search_ip s = Some (pre, ip) -> ip_shaped ip.
Proof.
  revert pre. induction s as [|c s IH]; intros pre; cbn [search_ip].
  - destruct (match_ip EmptyString) eqn:Hm; [|done].
    intros H. assert (s = ip) as -> by congruence.
    by apply match_ip_shaped in Hm.
  - destruct (match_ip (String c s)) as [ip0|] eqn:Hm.
    + intros H. assert (ip0 = ip) as -> by congruence.
      by apply match_ip_shaped in Hm.
    + destruct (search_ip s) as [[pre' ip']|]; [|done]. cbn.
      intros H. assert (ip' = ip) as -> by congruence. by apply (IH pre').
Qed.

Lemma parse_line_device (raw n ip : string) :
  parse_line raw = Device n ip ->
  n <> EmptyString /\ strip n = n /\ ip_shaped ip.
Proof.
  unfold parse_line.
  destruct (String.eqb (strip raw) ""); [done|].
  destruct (search_ip (strip raw)) as [[pre ip']|] eqn:Hs; [|done].
  destruct (String.eqb (strip (rstrip_dash pre)) "") eqn:He; [done|].
  intros [= <- <-]. split_and!.
  - by apply String.eqb_neq.
  - apply strip_idem.
  - by apply search_ip_shaped in Hs.
Qed.

Lemma parse_line_blank (raw : string) :
  parse_line raw = Blank <-> strip raw = EmptyString.
Proof.
  unfold parse_line. destruct (String.eqb_spec (strip raw) "") as [->|Hne].
  - done.
  - split; [|done].
    destruct (search_ip (strip raw)) as [[pre ip]|]; [|done].
    by destruct (String.eqb (strip (rstrip_dash pre)) "").
Qed.

Lemma foldl_step_devices (ls : list string) :
  forall acc n ip,
    (n, ip) ∈ (foldl step acc ls).1 ->
    (n, ip) ∈ acc.1 \/ exists raw, raw ∈ ls /\ parse_line raw = Device n ip.
Proof.
  induction ls as [|raw ls IH]; intros acc n ip; cbn [foldl]; [by left|].
  intros Hin. destruct (IH _ _ _ Hin) as [Hacc|(raw' & Hraw' & Hp)].
  - unfold step in Hacc.
    destruct (parse_line raw) as [n' ip'|w|] eqn:Hp; cbn [fst] in Hacc.
    + apply elem_of_app in Hacc as [Hacc|Hacc]; [by left|].
      apply list_elem_of_singleton in Hacc. injection Hacc as -> ->.
      right. exists raw. split; [apply list_elem_of_here | done].
    + by left.
    + by left.
  - right. exists raw'. split; [by apply list_elem_of_further | done].
Qed.

Lemma foldl_step_count (ls : list string) :
  forall acc,
    (length (foldl step acc ls).1 + length (foldl step acc ls).2
     = length acc.1 + length acc.2
       + length (filter (fun raw => strip raw <> EmptyString) ls))%nat.
Proof.
  induction ls as [|raw ls IH]; intros acc; cbn [foldl]; [simpl; lia|].
  rewrite IH, filter_cons. unfold step.
  pose proof (parse_line_blank raw) as Hb.
  destruct (parse_line raw) as [n ip|w|]; cbn [fst snd].
  - rewrite decide_True by (intros H; by apply Hb in H).
    rewrite length_app. cbn [length]. lia.
  - rewrite decide_True by (intros H; by apply Hb in H).
    rewrite length_app. cbn [length]. lia.
  - rewrite decide_False by (intros H; apply H; by apply Hb). lia.
Qed.

End DeviceList.

(** Every device [parse_device_list] returns has a name that is not empty
    and has no white space around it, and an address made of four groups
    of one to three digits joined by dots (the groups are not checked
    against 255). *)
Theorem parse_device_list_well_formed (text n ip : string) :
  (n, ip) ∈ (Devices.parse_device_list text).1 ->
  n <> EmptyString /\ strip n = n /\ Devices.ip_shaped ip.
Proof.
  unfold Devices.parse_device_list. intros Hin.
  apply foldl_step_devices in Hin as [Hin|(raw & _ & Hp)].
  - by apply elem_of_nil in Hin.
  - by apply parse_line_device in Hp.
Qed.

Lemma parse_device_list_well_formed_witness :
  ("OLT-A"%string <> EmptyString)
  /\ strip "OLT-A" = "OLT-A"%string
  /\ Devices.ip_shaped "192.168.1.1".
Proof.
  apply (parse_device_list_well_formed "  OLT-A--192.168.1.1 " "OLT-A" "192.168.1.1").
  vm_compute. apply list_elem_of_here.
Defined.

(** No line is dropped in silence: every line of the text that is not
    blank gives either one device or one logged warning. *)
Theorem parse_device_list_accounts_for_lines (text : string) :
  (length (Devices.parse_device_list text).1
   + length (Devices.parse_device_list text).2
   = length (filter (fun raw => strip raw <> EmptyString)
                    (Devices.split_nl (strip text))))%nat.
Proof.
  unfold Devices.parse_device_list. by rewrite foldl_step_count.
Qed.

(** ** Writing a device list and reading it back *)

Section RoundTrip.

Import Devices.

Lemma free_of_app (f : ascii -> bool) (s t : string) :
  free_of f (s +:+ t) = free_of f s && free_of f t.
Proof.
  induction s as [|c s IH]; [done|].
  rewrite append_cons_l. unfold free_of in *. simpl. by rewrite IH, andb_assoc.
Qed.

Lemma digit_not_space (c : ascii) : is_digit c = true -> is_space c = false.
Proof.
  unfold is_digit, digit_value, is_space.
  destruct ((48 <=? code c) && (code c <=? 57)) eqn:Hd; [|done]. intros _.
  apply andb_true_iff in Hd as [H1 H2].
  apply Z.leb_le in H1, H2.
  repeat (apply orb_false_iff; split);
    rewrite ?andb_false_iff, ?Z.leb_gt, ?Z.eqb_neq; lia.
Qed.

Lemma digits_free_of (f : ascii -> bool) (s : string) :
  (forall c, is_digit c = true -> f c = false) ->
  forallb is_digit (list_ascii_of_string s) = true ->
  free_of f s = true.
Proof.
  intros Hf. unfold free_of. induction s as [|c s IH]; simpl; [done|].
  intros [Hc Hs]%andb_true_iff. by rewrite (Hf c Hc), IH.
Qed.

Lemma octet_digits (a : string) :
  octet a = true ->
  forallb is_digit (list_ascii_of_string a) = true
  /\ (1 <= String.length a <= 3)%nat.
Proof.
  unfold octet. intros [[H1 H2]%andb_true_iff H3]%andb_true_iff.
  apply Nat.leb_le in H2, H3. done.
Qed.

(** Characters that are neither digit nor dot stay away from [f] when
    [f] accepts only such characters. *)
Lemma ipv4_free_of (f : ascii -> bool) (a b c d : string) :
  (forall x, is_digit x = true -> f x = false) ->
  f "."%char = false ->
  octet a = true -> octet b = true -> octet c = true -> octet d = true ->
  free_of f (ipv4 a b c d) = true.
Proof.
  intros Hf Hdot Ha Hb Hc Hd. unfold ipv4.
  apply octet_digits in Ha as [Ha _], Hb as [Hb _], Hc as [Hc _], Hd as [Hd _].
  rewrite !free_of_app.
  rewrite (digits_free_of f a), (digits_free_of f b),
    (digits_free_of f c), (digits_free_of f d) by done.
  unfold free_of. simpl. rewrite Hdot. reflexivity.
Qed.

Lemma rstrip_free (s : string) : free_of is_space s = true -> rstrip s = s.
Proof.
  unfold free_of. induction s as [|c s IH]; simpl; [done|].
  intros [Hc Hs]%andb_true_iff. rewrite (IH Hs).
  apply negb_true_iff in Hc. rewrite Hc. by destruct s.
Qed.

(** A plain name starts with a character that is no white space. *)
Lemma plain_name_head (n : string) :
  plain_name n -> exists c r, n = String c r /\ is_space c = false.
Proof.
  intros (Hne & Hstrip & _ & _). unfold strip in Hstrip.
  destruct (lstrip_head n) as [Hl|(c & r & Hl & Hc)].
  - rewrite Hl in Hstrip. simpl in Hstrip. congruence.
  - rewrite Hl in Hstrip. destruct (rstrip_head c r Hc) as [r' Hr'].
    rewrite Hr' in Hstrip. eauto.
Qed.

Lemma ip_shaped_tight (ip : string) :
  ip_shaped ip -> rstrip ip = ip /\ ip <> EmptyString.
Proof.
  intros (a & b & c & d & Ha & Hb & Hc & Hd & ->). split.
  - apply rstrip_free, ipv4_free_of; try done. apply digit_not_space.
  - unfold ipv4. apply append_not_empty_r. by rewrite append_cons_l.
Qed.

Lemma device_line_tight (n ip : string) :
  plain_name n -> ip_shaped ip ->
  strip (device_line (n, ip)) = device_line (n, ip)
  /\ rstrip (device_line (n, ip)) = device_line (n, ip)
  /\ device_line (n, ip) <> EmptyString
  /\ exists c r, device_line (n, ip) = String c r /\ is_space c = false.
Proof.
  intros Hn Hip. destruct (ip_shaped_tight ip Hip) as [Hr Hne].
  destruct (plain_name_head n Hn) as (c & r & -> & Hc).
  unfold device_line. cbn [fst snd].
  assert (Hrs : rstrip (String c r +:+ "-" +:+ ip) = (String c r +:+ "-" +:+ ip)%string).
  { apply rstrip_app_tight.
    - by apply rstrip_app_tight.
    - by apply append_not_empty_r. }
  split_and!.
  - unfold strip. rewrite append_cons_l. simpl lstrip. rewrite Hc.
    rewrite <- append_cons_l. exact Hrs.
  - exact Hrs.
  - by rewrite append_cons_l.
  - rewrite append_cons_l. eauto.
Qed.

(** ** The address is found behind the name *)

Lemma digit_run_blocked (u t : string) :
  free_of (fun c => Ascii.eqb c "010" || Ascii.eqb c ".") u = true ->
  exists d c r,
    digit_run (u +:+ String "-" t) = (d, String c r) /\ c <> "."%char.
Proof.
  induction u as [|c0 u IH]; intros Hu.
  - rewrite append_nil_l. simpl. by eexists _, _, _.
  - rewrite append_cons_l. unfold free_of in Hu. simpl in Hu.
    apply andb_true_iff in Hu as [Hc0 Hu].
    simpl. destruct (is_digit c0).
    + destruct (IH Hu) as (d & c & r & -> & Hc). by eexists _, _, _.
    + eexists _, _, _. split; [done|].
      apply negb_true_iff, orb_false_iff in Hc0 as [_ Hdot].
      by apply Ascii.eqb_neq in Hdot.
Qed.

Lemma match_ip_blocked (u t : string) :
  free_of (fun c => Ascii.eqb c "010" || Ascii.eqb c ".") u = true ->
  match_ip (u +:+ String "-" t) = None.
Proof.
  intros Hu. unfold match_ip, octet_dot.
  destruct (digit_run_blocked u t Hu) as (d & c & r & -> & Hc). cbn [fst snd].
  apply Ascii.eqb_neq in Hc. rewrite Hc.
  by destruct ((1 <=? String.length d)%nat && (String.length d <=? 3)%nat).
Qed.

Lemma search_ip_skip (u t : string) :
  free_of (fun c => Ascii.eqb c "010" || Ascii.eqb c ".") u = true ->
  search_ip (u +:+ String "-" t)
  = (fun pi => (u +:+ String "-" pi.1, pi.2)%string) <$> search_ip t.
Proof.
  induction u as [|c0 u IH]; intros Hu.
  - pose proof (match_ip_blocked EmptyString t Hu) as Hm.
    rewrite append_nil_l in Hm |- *. cbn [search_ip]. rewrite Hm.
    destruct (search_ip t) as [[pre ip]|]; done.
  - pose proof (match_ip_blocked (String c0 u) t Hu) as Hm.
    rewrite append_cons_l in Hm |- *. cbn [search_ip]. rewrite Hm.
    unfold free_of in Hu. simpl in Hu. apply andb_true_iff in Hu as [_ Hu].
    rewrite (IH Hu). destruct (search_ip t) as [[pre ip]|]; done.
Qed.

Lemma digit_run_app (a r : string) :
  forallb is_digit (list_ascii_of_string a) = true ->
  (digit_run r).1 = EmptyString ->
  digit_run (a +:+ r) = (a, r).
Proof.
  intros Ha Hr. induction a as [|c a IH].
  - rewrite append_nil_l. destruct r as [|c r]; [done|].
    simpl in *. by destruct (is_digit c).
  - rewrite append_cons_l. simpl in Ha |- *.
    apply andb_true_iff in Ha as [Hc Ha]. by rewrite Hc, (IH Ha).
Qed.

Lemma octet_dot_app (a r : string) :
  octet a = true -> octet_dot (a +:+ String "." r) = Some (a, r).
Proof.
  intros [Ha Hlen]%octet_digits. unfold octet_dot.
  rewrite digit_run_app by done. cbn [fst snd].
  destruct Hlen as [H1 H2]. apply Nat.leb_le in H1, H2. by rewrite H1, H2.
Qed.

Lemma take_chars_all (n : nat) (s : string) :
  (String.length s <= n)%nat -> take_chars n s = s.
Proof.
  revert s. induction n as [|n IH]; intros [|c s]; simpl; try done; [lia|].
  intros Hlen. rewrite IH; [done | lia].
Qed.

Lemma last_octet_end (d : string) :
  octet d = true -> last_octet d = Some d.
Proof.
  intros [Hd Hlen]%octet_digits. unfold last_octet.
  pose proof (digit_run_app d EmptyString Hd eq_refl) as Hrun.
  assert (Hnil : (d +:+ "")%string = d).
  { clear. induction d as [|c d IH]; [done|]. by rewrite append_cons_l, IH. }
  rewrite Hnil in Hrun. rewrite Hrun. cbn [fst].
  destruct Hlen as [H1 H2]. apply Nat.leb_le in H1. rewrite H1.
  by rewrite take_chars_all.
Qed.

Lemma match_ip_exact (ip : string) : ip_shaped ip -> match_ip ip = Some ip.
Proof.
  intros (a & b & c & d & Ha & Hb & Hc & Hd & ->). unfold match_ip, ipv4.
  rewrite !append_cons_l, !append_nil_l.
  rewrite octet_dot_app by done. cbn [mbind option_bind fst snd].
  rewrite octet_dot_app by done. cbn [mbind option_bind fst snd].
  rewrite octet_dot_app by done. cbn [mbind option_bind fst snd].
  by rewrite last_octet_end.
Qed.

Lemma rstrip_dash_app (s : string) : rstrip_dash (s +:+ "-") = rstrip_dash s.
Proof.
  induction s as [|c s IH]; [done|].
  rewrite append_cons_l. simpl. by rewrite IH.
Qed.

Lemma parse_line_device_line (n ip : string) :
  plain_name n -> ip_shaped ip ->
  parse_line (device_line (n, ip)) = Device n ip.
Proof.
  intros Hn Hip. unfold parse_line.
  destruct (device_line_tight n ip Hn Hip) as (-> & _ & Hne & _).
  apply String.eqb_neq in Hne. rewrite Hne.
  destruct Hn as (Hnn & Hstrip & Hfree & Hdash).
  unfold device_line. cbn [fst snd].
  change ("-" +:+ ip)%string with (String "-" ip).
  rewrite (search_ip_skip n ip Hfree).
  assert (Hs : search_ip ip = Some (EmptyString, ip)).
  { destruct ip as [|c ip']; cbn [search_ip]; by rewrite (match_ip_exact _ Hip). }
  rewrite Hs. cbn [fmap option_fmap option_map fst snd].
  change (String "-" "") with ("-")%string.
  rewrite rstrip_dash_app, Hdash, Hstrip.
  apply String.eqb_neq in Hnn. by rewrite Hnn.
Qed.

(** ** Lines of a text *)

Lemma split_nl_line (l : string) :
  free_of (fun c => Ascii.eqb c "010") l = true -> split_nl l = [l].
Proof.
  unfold free_of. induction l as [|c l IH]; simpl; [done|].
  intros [Hc Hl]%andb_true_iff. apply negb_true_iff in Hc.
  by rewrite Hc, (IH Hl).
Qed.

Lemma split_nl_app (l rest : string) :
  free_of (fun c => Ascii.eqb c "010") l = true ->
  split_nl (l +:+ String "010" rest) = l :: split_nl rest.
Proof.
  unfold free_of. induction l as [|c l IH]; [done|].
  rewrite append_cons_l. simpl.
  intros [Hc Hl]%andb_true_iff. apply negb_true_iff in Hc.
  by rewrite Hc, (IH Hl).
Qed.

Lemma device_line_one_line (n ip : string) :
  plain_name n -> ip_shaped ip ->
  free_of (fun c => Ascii.eqb c "010") (device_line (n, ip)) = true.
Proof.
  intros (_ & _ & Hfree & _) (a & b & c & d & Ha & Hb & Hc & Hd & ->).
  unfold device_line. cbn [fst snd]. rewrite !free_of_app.
  rewrite (ipv4_free_of _ a b c d); try done.
  - rewrite ?andb_true_r.
    unfold free_of in *. induction n as [|x n IH]; simpl in *; [done|].
    apply andb_true_iff in Hfree as [Hx Hn].
    apply negb_true_iff, orb_false_iff in Hx as [Hx _].
    by rewrite Hx, IH.
  - intros x Hx. unfold is_digit, digit_value in Hx.
    destruct ((48 <=? code x) && (code x <=? 57)) eqn:Hr; [|done].
    apply Ascii.eqb_neq. intros ->. done.
Qed.

Lemma device_text_lines (devs : list (string * string)) :
  Forall valid_device devs ->
  devs <> [] ->
  split_nl (device_text devs) = device_line <$> devs
  /\ rstrip (device_text devs) = device_text devs
  /\ device_text devs <> EmptyString
  /\ exists c r, device_text devs = String c r /\ is_space c = false.
Proof.
  induction 1 as [|[n ip] devs [Hn Hip] Hall IH]; intros Hne; [done|].
  cbn [fst snd] in *.
  destruct (device_line_tight n ip Hn Hip) as (_ & Hr & Hnn & (c & r & Hhead & Hc)).
  pose proof (device_line_one_line n ip Hn Hip) as Hone.
  destruct devs as [|dev' devs].
  - cbn [device_text fmap list_fmap]. split_and!; eauto using split_nl_line.
  - destruct IH as (Hlines & Hrt & Hnt & _); [done|].
    change (device_text ((n, ip) :: dev' :: devs))
      with (device_line (n, ip) +:+ String "010" (device_text (dev' :: devs)))%string.
    split_and!.
    + rewrite split_nl_app by done. rewrite Hlines. done.
    + apply rstrip_app_tight; [|done]. cbn [rstrip]. rewrite Hrt.
      destruct (device_text (dev' :: devs)); [by destruct Hnt | done].
    + by apply append_not_empty_r.
    + rewrite Hhead, append_cons_l. eauto.
Qed.

Lemma foldl_step_lines (devs : list (string * string)) :
  Forall valid_device devs ->
  forall acc, foldl step acc (device_line <$> devs) = (acc.1 ++ devs, acc.2).
Proof.
  induction 1 as [|[n ip] devs [Hn Hip] Hall IH]; intros acc.
  - cbn. rewrite app_nil_r. by destruct acc.
  - rewrite fmap_cons. cbn [foldl]. rewrite IH. unfold step.
    rewrite (parse_line_device_line n ip Hn Hip). cbn [fst snd].
    by rewrite <- app_assoc.
Qed.

End RoundTrip.

(** Round trip of the device list: a text with one line [name-address]
    per device, for plain names and addresses of four groups of one to
    three digits, is read back as exactly these devices, in order, and
    nothing is logged. *)
Theorem parse_device_list_round_trip (devs : list (string * string)) :
  Forall Devices.valid_device devs ->
  Devices.parse_device_list (Devices.device_text devs) = (devs, []).
Proof.
  intros Hall. unfold Devices.parse_device_list.
  destruct devs as [|dev devs]; [done|].
  destruct (device_text_lines (dev :: devs) Hall) as (Hlines & Hr & _ & (c & r & Hhead & Hc));
    [done|].
  assert (Hstrip : strip (Devices.device_text (dev :: devs))
                   = Devices.device_text (dev :: devs)).
  { unfold strip. rewrite Hhead. simpl lstrip. rewrite Hc, <- Hhead. exact Hr. }
  rewrite Hstrip, Hlines. by rewrite (foldl_step_lines (dev :: devs) Hall).
Qed.

Lemma parse_device_list_round_trip_witness :
  Devices.parse_device_list (Devices.device_text devs_example)
  = (devs_example, []).
Proof.
  apply parse_device_list_round_trip. unfold devs_example.
  constructor; [|constructor; [|constructor]].
  - split.
    + split_and!; [discriminate | reflexivity..].
    + exists "192"%string, "168"%string, "1"%string, "1"%string.
      split_and!; reflexivity.
  - split.
    + split_and!; [discriminate | reflexivity..].
    + exists "10"%string, "0"%string, "0"%string, "254"%string.
      split_and!; reflexivity.
Defined.

(** * The batch *)

Section BatchRuns.

Lemma run_app_failure (good rest : list Batch.file) (f : Batch.file) (e : exc) :
  Forall (fun g => is_Some (Batch.report_of g)) good ->
  parse_epon_data f.2 = Raise e ->
  Batch.run (good ++ f :: rest) = (omap Batch.report_of good, Some e).
Proof.
  intros Hgood Hf. induction Hgood as [|g good [r Hr] _ IH].
  - simpl. by rewrite Hf.
  - rewrite <- app_comm_cons. cbn [Batch.run omap list_omap]. rewrite IH, Hr.
    unfold Batch.report_of in Hr.
    destruct (parse_epon_data g.2); [|discriminate].
    by injection Hr as <-.
Qed.

Lemma run_all_good (files : list Batch.file) :
  Forall (fun g => is_Some (Batch.report_of g)) files ->
  Batch.run files = (omap Batch.report_of files, None)
  /\ length (omap Batch.report_of files) = length files.
Proof.
  induction 1 as [|g files [r Hr] _ [IH IHlen]]; [done|].
  cbn [Batch.run omap list_omap]. rewrite IH, Hr.
  unfold Batch.report_of in Hr.
  destruct (parse_epon_data g.2); [|discriminate].
  injection Hr as <-. split; [done|]. cbn [length]. by rewrite IHlen.
Qed.

End BatchRuns.

(** The first file on which [parse_epon_data] raises ends the batch: the
    files before it have their reports, the exception is the one logged,
    and no file after it gets a report, whether it would parse or not. *)
Theorem process_task_stops_at_first_failure
    (good rest : list Batch.file) (f : Batch.file) (e : exc) :
  Forall (fun g => is_Some (Batch.report_of g)) good ->
  parse_epon_data f.2 = Raise e ->
  Batch.process_task (good ++ f :: rest)
  = (omap Batch.report_of good, Some e)
  /\ length (Batch.process_task (good ++ f :: rest)).1 = length good.
Proof.
  intros Hgood Hf.
  assert (Hrun : Batch.process_task (good ++ f :: rest)
                 = (omap Batch.report_of good, Some e)).
  { unfold Batch.process_task.
    destruct (good ++ f :: rest) eqn:E; [by destruct good|].
    rewrite <- E. by apply run_app_failure. }
  split; [exact Hrun|]. rewrite Hrun. cbn [fst].
  by destruct (run_all_good good Hgood) as [_ ->].
Qed.

Lemma process_task_stops_at_first_failure_witness :
  Batch.process_task batch_example
  = (omap Batch.report_of [("a.txt", Some doc_dis)]%string, Some KeyError)
  /\ length (Batch.process_task batch_example).1 = 1%nat.
Proof.
  apply (process_task_stops_at_first_failure
           [("a.txt", Some doc_dis)]%string
           [("c.txt", Some doc_dis)]%string
           ("b.txt"%string, Some doc_port25) KeyError).
  - constructor; [|constructor]. unfold Batch.report_of. cbn [snd].
    replace (parse_epon_data (Some doc_dis)) with (Ok (the_table doc_dis))
      by (vm_compute; reflexivity).
    eauto.
  - vm_compute. reflexivity.
Defined.

(** When every file of a non-empty batch parses, every file gets its
    report, in the order of the files, and nothing is logged as an error;
    an empty batch is itself reported as a [ValueError]. *)
Theorem process_task_all_reports (files : list Batch.file) :
  Forall (fun g => is_Some (Batch.report_of g)) files ->
  Batch.process_task files
  = match files with
    | [] => ([], Some ValueError)
    | _ => (omap Batch.report_of files, None)
    end
  /\ length (omap Batch.report_of files) = length files.
Proof.
  intros Hall. destruct (run_all_good files Hall) as [Hrun Hlen].
  split; [|exact Hlen]. unfold Batch.process_task. by destruct files.
Qed.

Lemma process_task_all_reports_witness :
  Batch.process_task [("a.txt", Some doc_dis)]%string
  = (omap Batch.report_of [("a.txt", Some doc_dis)]%string, None)
  /\ length (omap Batch.report_of [("a.txt", Some doc_dis)]%string) = 1%nat.
Proof.
  apply (process_task_all_reports [("a.txt", Some doc_dis)]%string).
  constructor; [|constructor]. unfold Batch.report_of. cbn [snd].
  replace (parse_epon_data (Some doc_dis)) with (Ok (the_table doc_dis))
    by (vm_compute; reflexivity).
  eauto.
Defined.

